(** * The transition producer of the playout core

    A shallow embedding of
    [src/core/producer/transition/transition_producer.cpp]
    ([caspar::core::transition_producer::implementation]) and the properties
    of its frame sequence: progress of the blend, exhaustion, the failure
    barrier around the two children and the auto-advance of a child.

    Conventions of the embedding.
    - A [shared_ptr] is an optional address ([None] is [nullptr]); frames
      live in a frame heap, child producers in a producer heap, so that two
      pointers to one object alias in the model as they do in the code.
    - [unsigned short], [short] and [int] are [Z] with the wrap-around written
      out ([to_ushort], [to_short]).
    - A [double] is the exact rational it denotes ([Q]); the machine value is
      the binary64 nearest to it.  [x * 256.0] is exact in binary64, and for
      16-bit operands the correctly rounded quotient [c / d] lies in the same
      interval [[m/256, (m+1)/256)] as the exact one, so the truncation to
      [int] in [compose] is the same number in both readings;
      [binary64_volume_is_quotient] evaluates this on primitive floats for
      the durations up to 256 frames.
    - [tbb::parallel_invoke] joins before it returns; its two tasks are run
      in the order they are listed.  In [render_frame] the two tasks render
      the two children, in [compose] they scale the samples of the two
      frames.  Run in the listed order the tasks give what every schedule
      gives as long as they work on distinct objects (two child producers,
      two frame objects), up to the order in which two failing children
      write to the log.  When both children hand over one and the same frame
      object, the two [set_volume] tasks race on its samples in the source:
      none of the properties below is about the samples in that case. *)

From Stdlib Require Import ZArith QArith Qround Lia List String.
From Stdlib Require Import PrimFloat Uint63.
From stdpp Require Import base option functions gmap strings.

Close Scope Q_scope.
Local Open Scope Z_scope.

(** ** Machine integers *)

Definition USHRT_MAX : Z := 65535.

(** Conversion to [unsigned short]: reduction modulo 2^16. *)
Definition to_ushort (z : Z) : Z := z mod 65536.

(** Conversion to [short] ([static_cast<short>]): two's complement
    wrap-around into [-32768, 32767]. *)
Definition to_short (z : Z) : Z := (z + 32768) mod 65536 - 32768.

(** ** Doubles *)

Definition double := Q.

(** [static_cast<double>] of an integer. *)
Definition to_double (z : Z) : double := inject_Z z.

(** [static_cast<int>] of a double: truncation toward zero. *)
Definition double_to_int (q : double) : Z :=
  if Qle_bool 0 q then Qfloor q else Qceiling q.

(** ** Frames *)

Definition gpu_frame_ptr := option nat.

Record rectangle := mk_rectangle { left : Q; top : Q; right : Q; bottom : Q }.

(** Modelled from the spec: [gpu_frame] and [gpu_composite_frame] are declared
    in [frame/gpu_frame.h] and [frame/gpu_composite_frame.h], which are not
    part of the sources at hand.  A frame carries 16-bit signed PCM samples,
    an alpha (default 1), a translation (default (0,0)) and texture
    coordinates (default the unit rectangle); a composite frame aggregates an
    ordered list of child frames, back to front. *)
Record gpu_frame := mk_gpu_frame {
  audio_data_ : list Z;
  alpha_ : Q;
  x_ : Q;
  y_ : Q;
  texcoords_ : rectangle;
  frames_ : list nat
}.

Definition unit_rectangle : rectangle := mk_rectangle 0 1 1 0.

(** [std::make_shared<gpu_composite_frame>()]. *)
Definition gpu_composite_frame : gpu_frame :=
  mk_gpu_frame [] 1 0 0 unit_rectangle [].

(** [frame->alpha(a)] *)
Definition alpha (a : double) (f : gpu_frame) : gpu_frame :=
  mk_gpu_frame (audio_data_ f) a (x_ f) (y_ f) (texcoords_ f) (frames_ f).

(** [frame->translate(x, y)] *)
Definition translate (x y : double) (f : gpu_frame) : gpu_frame :=
  mk_gpu_frame (audio_data_ f) (alpha_ f) x y (texcoords_ f) (frames_ f).

(** [frame->texcoords(r)] *)
Definition texcoords (r : rectangle) (f : gpu_frame) : gpu_frame :=
  mk_gpu_frame (audio_data_ f) (alpha_ f) (x_ f) (y_ f) r (frames_ f).

(** Assignment through [frame->audio_data()]. *)
Definition audio_data (a : list Z) (f : gpu_frame) : gpu_frame :=
  mk_gpu_frame a (alpha_ f) (x_ f) (y_ f) (texcoords_ f) (frames_ f).

(** [composite->add(child)]: the child pointer is appended. *)
Definition add (child : nat) (f : gpu_frame) : gpu_frame :=
  mk_gpu_frame (audio_data_ f) (alpha_ f) (x_ f) (y_ f) (texcoords_ f)
               (frames_ f ++ [child]).

(** ** Child producers *)

Definition frame_producer_ptr := option nat.
Definition frame_factory_ptr := option nat.

(** What one call of a child's [render_frame] does: it returns a frame
    pointer ([None] is the exhausted sentinel) or it raises. *)
Inductive outcome :=
  | returns (frame : gpu_frame_ptr)
  | throws.

(** Modelled from the spec: [frame_producer] is declared in
    [producer/frame_producer.h], which is not part of the sources at hand.
    A producer has the capability set [initialize(factory)],
    [render_frame()], [get_following_producer()] and
    [set_leading_producer(p)].  A child is taken to be deterministic in the
    number of [render_frame] calls it has received, and of its operations
    only [render_frame] raises. *)
Record frame_producer := mk_frame_producer {
  behaviour : nat -> outcome;
  calls : nat;
  following : frame_producer_ptr;
  leading : frame_producer_ptr;
  factory : frame_factory_ptr
}.

Inductive log_entry :=
  | current_exception
  | warning (msg : string).

(** Everything the transition shares with the rest of the channel. *)
Record world := mk_world {
  producers : nat -> frame_producer;
  frames : gmap nat gpu_frame;
  log : list log_entry
}.

Definition with_producers (ps : nat -> frame_producer) (w : world) : world :=
  mk_world ps (frames w) (log w).

Definition with_frames (h : gmap nat gpu_frame) (w : world) : world :=
  mk_world (producers w) h (log w).

Definition with_log (l : list log_entry) (w : world) : world :=
  mk_world (producers w) (frames w) l.

(** [producer->render_frame()] on a child. *)
Definition producer_render_frame (p : nat) (w : world) : outcome * world :=
  let o := producers w p in
  (behaviour o (calls o),
   with_producers
     (<[p := mk_frame_producer (behaviour o) (S (calls o)) (following o)
                               (leading o) (factory o)]> (producers w)) w).

(** [producer->get_following_producer()] on a child. *)
Definition producer_get_following_producer (p : nat) (w : world)
  : frame_producer_ptr := following (producers w p).

(** [producer->initialize(factory)] on a child. *)
Definition producer_initialize (p : nat) (fac : frame_factory_ptr) (w : world)
  : world :=
  let o := producers w p in
  with_producers
    (<[p := mk_frame_producer (behaviour o) (calls o) (following o)
                              (leading o) fac]> (producers w)) w.

(** [producer->set_leading_producer(l)] on a child. *)
Definition producer_set_leading_producer (p : nat) (l : frame_producer_ptr)
  (w : world) : world :=
  let o := producers w p in
  with_producers
    (<[p := mk_frame_producer (behaviour o) (calls o) (following o)
                              l (factory o)]> (producers w)) w.

(** ** Transition info *)

Inductive transition_type := cut | mix | push | slide | wipe.
Inductive transition_direction := from_left | from_right.

Global Instance transition_type_eq_dec : EqDecision transition_type.
Proof. solve_decision. Defined.

(** [transition_info] is declared in [transition_producer.h]; the code reads
    its fields [type], [duration] and [direction].  The duration is a frame
    count held in the integer type of the counter it is compared with
    ([unsigned short current_frame_]); [representable] is that range. *)
Record transition_info := mk_transition_info {
  type : transition_type;
  duration : Z;
  direction : transition_direction
}.

Definition representable (info : transition_info) : Prop :=
  0 <= duration info <= USHRT_MAX.

Definition frame_format_desc := string.

(** ** [transition_producer::implementation] *)

Record implementation := mk_implementation {
  format_desc_ : frame_format_desc;
  source_producer_ : frame_producer_ptr;
  dest_producer_ : frame_producer_ptr;
  current_frame_ : Z;
  info_ : transition_info;
  factory_ : frame_factory_ptr
}.

(** Modelled from the spec: [null_argument] is declared in the exception
    header of [common/], which is not part of the sources at hand; it is the
    error kind the spec calls InvalidArgument, tagged with the name of the
    offending argument. *)
Inductive exception :=
  | null_argument (arg_name_info : string).

(** The constructor. *)
Definition new_implementation (dest : frame_producer_ptr)
  (info : transition_info) (format_desc : frame_format_desc)
  : exception + implementation :=
  match dest with
  | None => inl (null_argument "dest")
  | Some _ => inr (mk_implementation format_desc None dest 0 info None)
  end.

Definition get_following_producer (t : implementation) : frame_producer_ptr :=
  dest_producer_ t.

Definition set_leading_producer (producer : frame_producer_ptr)
  (t : implementation) : implementation :=
  mk_implementation (format_desc_ t) producer (dest_producer_ t)
                    (current_frame_ t) (info_ t) (factory_ t).

(** [initialize]: dereferences [dest_producer_], so there is no result when
    the dest has been removed. *)
Definition initialize (fac : frame_factory_ptr) (t : implementation)
  (w : world) : option (implementation * world) :=
  match dest_producer_ t with
  | None => None
  | Some d =>
      Some (mk_implementation (format_desc_ t) (source_producer_ t)
                              (dest_producer_ t) (current_frame_ t) (info_ t)
                              fac,
            producer_initialize d fac w)
  end.

(** [render_frame(frame_producer_ptr& producer)]: the result is the frame,
    the new value of the reference and the new world.  The recursion follows
    the chain of following producers; [fuel] bounds its depth, and [None]
    means the bound was reached. *)
Fixpoint render_frame_ref (fuel : nat) (fac : frame_factory_ptr) (w : world)
  (producer : frame_producer_ptr)
  : option (gpu_frame_ptr * frame_producer_ptr * world) :=
  match producer with
  | None => Some (None, None, w)
  | Some p =>
      let '(o, w1) := producer_render_frame p w in
      match o with
      | throws =>
          Some (None, None,
                with_log (log w1 ++ [current_exception;
                            warning "Removed renderer from transition."]) w1)
      | returns frame =>
          match frame, producer_get_following_producer p w1 with
          | None, Some fo =>
              match fuel with
              | O => None
              | S fuel' =>
                  let w2 := producer_initialize fo fac w1 in
                  let w3 := producer_set_leading_producer fo (Some p) w2 in
                  render_frame_ref fuel' fac w3 (Some fo)
              end
          | _, _ => Some (frame, Some p, w1)
          end
      end
  end.

(** One sample of [set_volume]. *)
Definition scale_sample (volume : Z) (s : Z) : Z :=
  to_short (Z.shiftr (s * volume) 8).

(** [set_volume]: the samples of the frame are overwritten in place. *)
Definition set_volume (frame : gpu_frame_ptr) (volume : Z)
  (h : gmap nat gpu_frame) : gmap nat gpu_frame :=
  match frame with
  | None => h
  | Some f =>
      alter (fun fr => audio_data (map (scale_sample volume) (audio_data_ fr)) fr)
            f h
  end.

(** The geometry part of [compose], for a present dest frame [d]. *)
Definition transform (info : transition_info) (a : double) (d : nat)
  (src_frame : gpu_frame_ptr) (h : gmap nat gpu_frame) : gmap nat gpu_frame :=
  match type info with
  | cut => h
  | mix => alter (alpha a) d h
  | slide =>
      match direction info with
      | from_left => alter (translate (-1 + a) 0) d h
      | from_right => alter (translate (1 - a) 0) d h
      end
  | push =>
      match direction info with
      | from_left =>
          let h := alter (translate (-1 + a) 0) d h in
          match src_frame with
          | Some s => alter (translate (0 + a) 0) s h
          | None => h
          end
      | from_right =>
          let h := alter (translate (1 - a) 0) d h in
          match src_frame with
          | Some s => alter (translate (0 - a) 0) s h
          | None => h
          end
      end
  | wipe =>
      match direction info with
      | from_left =>
          let h := alter (translate (-1 + a) 0) d h in
          alter (texcoords (mk_rectangle (-1 + a) 1 a 0)) d h
      | from_right =>
          let h := alter (translate (1 - a) 0) d h in
          alter (texcoords (mk_rectangle (1 - a) 1 (2 - a) 0)) d h
      end
  end%Q.

(** The progress value and the integer volume that [compose] computes from
    the fields of the object. *)
Definition progress (t : implementation) : double :=
  (to_double (current_frame_ t) / to_double (duration (info_ t)))%Q.

Definition progress_volume (t : implementation) : Z :=
  double_to_int
    (to_double (current_frame_ t) / to_double (duration (info_ t)) * 256)%Q.

(** [compose]: the result pointer and the frame heap after the call. *)
Definition compose (t : implementation) (dest_frame src_frame : gpu_frame_ptr)
  (h : gmap nat gpu_frame) : gpu_frame_ptr * gmap nat gpu_frame :=
  if decide (type (info_ t) = cut) then (src_frame, h)
  else
    match dest_frame with
    | None => (None, h)
    | Some d =>
        let a := progress t in
        let volume := progress_volume t in
        let h := set_volume dest_frame volume h in
        let h := set_volume src_frame (256 - volume) h in
        let h := transform (info_ t) a d src_frame h in
        let composite := fresh (dom h) in
        let h := <[composite := gpu_composite_frame]> h in
        let h := match src_frame with
                 | Some s => alter (add s) composite h
                 | None => h
                 end in
        let h := alter (add d) composite h in
        (Some composite, h)
    end.

(** Assignments to the fields that [render_frame] writes. *)
Definition with_current_frame (c : Z) (t : implementation) : implementation :=
  mk_implementation (format_desc_ t) (source_producer_ t) (dest_producer_ t)
                    c (info_ t) (factory_ t).

Definition with_children (source dest : frame_producer_ptr)
  (t : implementation) : implementation :=
  mk_implementation (format_desc_ t) source dest (current_frame_ t) (info_ t)
                    (factory_ t).

(** [render_frame()].  The counter is incremented by the test itself
    ([current_frame_++ >= info_.duration]), so it moves on every call, and
    [compose] reads the incremented value. *)
Definition render_frame (fuel : nat) (t : implementation) (w : world)
  : option (gpu_frame_ptr * implementation * world) :=
  let old := current_frame_ t in
  let t := with_current_frame (to_ushort (old + 1)) t in
  if decide (old >= duration (info_ t)) then Some (None, t, w)
  else
    '(dest, dp, w) ← render_frame_ref fuel (factory_ t) w (dest_producer_ t);
    '(source, sp, w) ← render_frame_ref fuel (factory_ t) w (source_producer_ t);
    let t := with_children sp dp t in
    let '(r, h) := compose t dest source (frames w) in
    Some (r, t, with_frames h w).

(** [n] successive calls of [render_frame]: the results in call order and the
    state after the last call. *)
Fixpoint render_frames (n : nat) (fuel : nat) (t : implementation) (w : world)
  : option (list gpu_frame_ptr * implementation * world) :=
  match n with
  | O => Some ([], t, w)
  | S n' =>
      '(r, t1, w1) ← render_frame fuel t w;
      '(rs, t2, w2) ← render_frames n' fuel t1 w1;
      Some (r :: rs, t2, w2)
  end.

(** * Notions used in the statements *)

(** ** The volume in binary64

    The volume of [compose] as the machine computes it, in IEEE binary64
    with the kernel's primitive floats: the quotient of the two converted
    integers, times [256.0].  Its truncation to [int] is [m] exactly when
    [m <= x < m + 1]. *)

Definition binary64_of_Z (z : Z) : float := PrimFloat.of_uint63 (Uint63.of_Z z).

Definition binary64_progress_volume (c d : Z) : float :=
  PrimFloat.mul (PrimFloat.div (binary64_of_Z c) (binary64_of_Z d))
                (binary64_of_Z 256).

Definition binary64_truncates_to (x : float) (m : Z) : bool :=
  PrimFloat.leb (binary64_of_Z m) x && PrimFloat.ltb x (binary64_of_Z (m + 1)).

(** Every counter value [0 .. d] of every duration [1 .. n]. *)
Definition counters_up_to (n : nat) : list (Z * Z) :=
  d ← map Z.of_nat (seq 1 n);
  c ← map Z.of_nat (seq 0 (S (Z.to_nat d)));
  [(c, d)].

(** ** What a child will do *)

(** The child returns a frame on every call, whatever its call count. *)
Definition always_frames (w : world) (p : nat) : Prop :=
  forall n, exists f, behaviour (producers w p) n = returns (Some f).

(** The child is gone, or its next [render_frame] raises. *)
Definition absent_or_raising (w : world) (producer : frame_producer_ptr) : Prop :=
  match producer with
  | None => True
  | Some p => behaviour (producers w p) (calls (producers w p)) = throws
  end.

(** What the next call of child [p] will do. *)
Definition next_outcome (w : world) (p : nat) : outcome :=
  behaviour (producers w p) (calls (producers w p)).

(** ** Parts of [compose] and [render_frame] *)

(** The frame heap after the audio scaling and the geometry of [compose],
    before the composite is allocated. *)
Definition blended (t : implementation) (d : nat) (src_frame : gpu_frame_ptr)
  (h : gmap nat gpu_frame) : gmap nat gpu_frame :=
  transform (info_ t) (progress t) d src_frame
    (set_volume src_frame (256 - progress_volume t)
       (set_volume (Some d) (progress_volume t) h)).

(** The child list of the composite that [compose] builds. *)
Definition layers (d : nat) (src_frame : gpu_frame_ptr) : list nat :=
  match src_frame with
  | Some s => [s; d]
  | None => [d]
  end.

Ltac heap_lookup :=
  unfold blended, transform, set_volume;
  repeat match goal with
         | |- context [type ?i] => destruct (type i) eqn:?; try congruence
         | |- context [direction ?i] => destruct (direction i) eqn:?
         | |- context [match ?s with Some _ => _ | None => _ end] =>
             is_var s; destruct s
         end;
  repeat (rewrite lookup_alter; case_decide; subst; try congruence);
  repeat match goal with
         | |- context [?h !! ?i] => is_var h; destruct (h !! i); simpl
         end;
  try congruence; try reflexivity.

(** The object after the counter has moved. *)
Definition ticked (t : implementation) : implementation :=
  with_current_frame (to_ushort (current_frame_ t + 1)) t.

(** How many frames a run has emitted. *)
Definition frames_emitted (rs : list gpu_frame_ptr) : nat :=
  length (filter (fun r => is_Some r) rs).

(** ** A concrete channel *)

(** A producer that hands over the same frame object on every call. *)
Definition constant_producer (f : nat) : frame_producer :=
  mk_frame_producer (fun _ => returns (Some f)) 0 None None None.

(** A producer whose [render_frame] raises on every call. *)
Definition broken_producer : frame_producer :=
  mk_frame_producer (fun _ => throws) 0 None None None.

(** A plain frame with the default geometry and the given samples. *)
Definition tone (a : list Z) : gpu_frame :=
  mk_gpu_frame a 1 0 0 unit_rectangle [].

(** Producer [p] hands over frame [p]; frames 0 and 1 exist. *)
Definition studio : world :=
  mk_world constant_producer
           (<[0%nat := tone [10000; -10000]]> (<[1%nat := tone [10000; 7]]> ∅))
           [].

(** The transition to producer 0 from producer 1, as constructed and then
    given its leading producer. *)
Definition started (info : transition_info) : implementation :=
  match new_implementation (Some 0%nat) info "PAL" with
  | inr t => set_leading_producer (Some 1%nat) t
  | inl _ => mk_implementation "PAL" None None 0 info None
  end.

(** The same transition as its owner prepares it: constructed, initialized
    with factory 7 and then given its leading producer, with the studio as
    [initialize] leaves it.  No frame has been asked of it. *)
Definition prepared (info : transition_info) : implementation * world :=
  match new_implementation (Some 0%nat) info "PAL" with
  | inr t =>
      match initialize (Some 7%nat) t studio with
      | Some (t', w') => (set_leading_producer (Some 1%nat) t', w')
      | None => (t, studio)
      end
  | inl _ => (mk_implementation "PAL" None None 0 info None, studio)
  end.

(** The results of a run, without the final state. *)
Definition results (r : option (list gpu_frame_ptr * implementation * world))
  : option (list gpu_frame_ptr) := (fun x => x.1.1) <$> r.

(** A frame of the heap after one call, seen through a projection. *)
Definition frame_after {A} (proj : gpu_frame -> A) (f : nat)
  (r : option (gpu_frame_ptr * implementation * world)) : option A :=
  r ≫= (fun x => proj <$> frames x.2 !! f).

(** The two children of a transition. *)
Inductive child := dest_child | source_child.

(** The studio with a dest child (producer 0) that raises on every call. *)
Definition studio_with_broken_dest : world :=
  mk_world (fun p => match p with
                     | O => broken_producer
                     | _ => constant_producer p
                     end)
           (frames studio) [].

(** The studio with a source child (producer 1) that raises on every call. *)
Definition studio_with_broken_source : world :=
  mk_world (fun p => match p with
                     | 1%nat => broken_producer
                     | _ => constant_producer p
                     end)
           (frames studio) [].

(** ** Chains of following producers *)

(** [p] is exhausted and followed by the head of [rest], which is exhausted
    and followed by the next, and so on; the last producer of the chain is
    only named. *)
Fixpoint exhausted_chain (w : world) (p : nat) (rest : list nat) : Prop :=
  match rest with
  | [] => True
  | q :: rest' =>
      next_outcome w p = returns None
      /\ following (producers w p) = Some q
      /\ exhausted_chain w q rest'
  end.

(** Every producer of [rest] has been initialized with [fac] and has its
    predecessor in the chain as leading producer. *)
Fixpoint linked (w : world) (fac : frame_factory_ptr) (p : nat)
  (rest : list nat) : Prop :=
  match rest with
  | [] => True
  | q :: rest' =>
      leading (producers w q) = Some p
      /\ factory (producers w q) = fac
      /\ linked w fac q rest'
  end.

(** The world after child [p] was called and its following [q] was
    initialized and given [p] as leading producer. *)
Definition advanced (fac : frame_factory_ptr) (p q : nat) (w : world) : world :=
  producer_set_leading_producer q (Some p)
    (producer_initialize q fac (producer_render_frame p w).2).

Ltac producer_fields :=
  unfold advanced, producer_set_leading_producer, producer_initialize,
    producer_render_frame, next_outcome, with_producers, insert, fn_insert;
  simpl; repeat (case_decide; subst; simpl); try congruence; try reflexivity.

(** A producer that has nothing left and names its successor. *)
Definition finished_producer (next : nat) : frame_producer :=
  mk_frame_producer (fun _ => returns None) 0 (Some next) None None.

(** Producers 0, 1 and 2 are finished and followed by 1, 2 and 3; producer 3
    hands over frame 0. *)
Definition relay : world :=
  mk_world (fun p => if (p <? 3)%nat then finished_producer (S p)
                     else constant_producer 0)
           (frames studio) [].

(** A transition to producer 0 that was initialized with factory 7. *)
Definition relay_transition : implementation :=
  mk_implementation "PAL" None (Some 0%nat) 0
                    (mk_transition_info mix 5 from_left) (Some 7%nat).

(** * Notions used in the further properties *)

(** The progress and the volume that a call computes when it finds the
    counter of [t]: the counter has moved by then. *)
Definition next_progress (t : implementation) : double :=
  (to_double (current_frame_ t + 1) / to_double (duration (info_ t)))%Q.

Definition next_volume (t : implementation) : Z :=
  256 * (current_frame_ t + 1) / duration (info_ t).

(** The values of a [short]. *)
Definition in_short_range (s : Z) : Prop := -32768 <= s <= 32767.

(** The translation of a frame. *)
Definition translation (f : gpu_frame) : Q * Q := (x_ f, y_ f).

(** ** Further concrete channels *)

(** A producer that has nothing left and no successor. *)
Definition ended_producer : frame_producer :=
  mk_frame_producer (fun _ => returns None) 0 None None None.

(** The studio with a dest child (producer 0) that has ended. *)
Definition studio_with_ended_dest : world :=
  mk_world (fun p => match p with
                     | O => ended_producer
                     | _ => constant_producer p
                     end)
           (frames studio) [].

(** The studio with a dest child (producer 0) that has ended and names
    itself as its successor. *)
Definition studio_with_looping_dest : world :=
  mk_world (fun p => match p with
                     | O => finished_producer 0
                     | _ => constant_producer p
                     end)
           (frames studio) [].

(** The transition to producer 0 as constructed, before it has been given a
    leading producer. *)
Definition constructed (info : transition_info) : implementation :=
  match new_implementation (Some 0%nat) info "PAL" with
  | inr t => t
  | inl _ => mk_implementation "PAL" None None 0 info None
  end.

(** * The server shell

    A shallow embedding of the configuration phase of [src/shell/server.cpp]
    ([caspar::server::impl]): the constructor and the functions
    [setup_channels], [setup_thumbnail_generation], [setup_controllers],
    [setup_osc] and [create_protocol].

    Conventions of the embedding.
    - A [boost::property_tree::wptree] is a node with a string and an ordered
      list of named children; a dotted path literal of the source is the list
      of its keys; a lookup takes the first child of a name.
    - A wide string is a [string] of 8-bit characters, compared in the
      classic locale.
    - What the modules outside this file do (parsing a number, knowing a
      video mode, creating a consumer, binding a port, parsing an address) is
      one record of functions, [externals]; the theorems hold for every such
      record.  Constructors of channels, image mixers and the thumbnail
      generator, and the [init] functions of the modules, are taken not to
      raise.
    - An exception that leaves a function is the [inl] of its result. *)

From Stdlib Require DecimalString.

Module server.

(** ** Property trees *)

#[warnings="-register-all"]
Inductive wptree := node (data : string) (children : list (string * wptree)).

Definition data (pt : wptree) : string :=
  match pt with node d _ => d end.

Definition children (pt : wptree) : list (string * wptree) :=
  match pt with node _ cs => cs end.

Inductive exception :=
  | ptree_bad_path (path : list string)
  | ptree_bad_data (path : list string)
  | caspar_exception (arg_name_info arg_value_info : option string)
                     (msg_info : string)
  | foreign_exception (what : string).

(** The first child of the given name. *)
Fixpoint find (key : string) (cs : list (string * wptree)) : option wptree :=
  match cs with
  | [] => None
  | (k, c) :: cs' => if String.eqb k key then Some c else find key cs'
  end.

(** [pt.get_child_optional(path)] *)
Fixpoint get_child_optional (path : list string) (pt : wptree)
  : option wptree :=
  match path with
  | [] => Some pt
  | key :: path' =>
      match find key (children pt) with
      | None => None
      | Some c => get_child_optional path' c
      end
  end.

(** [pt.get_child(path)] *)
Definition get_child (path : list string) (pt : wptree)
  : exception + wptree :=
  match get_child_optional path pt with
  | None => inl (ptree_bad_path path)
  | Some c => inr c
  end.

(** [pt.get<T>(path)] with the translator [parse] of [T]. *)
Definition get {T} (parse : string -> option T) (path : list string)
  (pt : wptree) : exception + T :=
  match get_child_optional path pt with
  | None => inl (ptree_bad_path path)
  | Some c =>
      match parse (data c) with
      | None => inl (ptree_bad_data path)
      | Some v => inr v
      end
  end.

(** [pt.get(path, default_value)] with the translator [parse] of the type of
    the default. *)
Definition get_or {T} (parse : string -> option T) (path : list string)
  (default_value : T) (pt : wptree) : T :=
  match get_child_optional path pt with
  | None => default_value
  | Some c =>
      match parse (data c) with
      | None => default_value
      | Some v => v
      end
  end.

(** The translator of [std::wstring]: the text itself. *)
Definition wstring (s : string) : option string := Some s.

(** ** Case-insensitive comparison *)

(** [std::toupper] in the classic locale. *)
Definition toupper (c : Ascii.ascii) : Ascii.ascii :=
  let n := Ascii.nat_of_ascii c in
  if ((97 <=? n) && (n <=? 122))%nat then Ascii.ascii_of_nat (n - 32) else c.

(** [boost::iequals] *)
Fixpoint iequals (a b : string) : bool :=
  match a, b with
  | EmptyString, EmptyString => true
  | String x a', String y b' =>
      Ascii.eqb (toupper x) (toupper y) && iequals a' b'
  | _, _ => false
  end.

(** ** The state of [server::impl] *)

(** Which strategy [create_protocol] has made. *)
Inductive protocol_strategy := AMCPProtocolStrategy
                             | CIIProtocolStrategy
                             | clk_protocol_strategy.

Record AsyncEventServer := mk_AsyncEventServer {
  protocol_ : protocol_strategy;
  port_ : Z
}.

(** What a channel is made with: a video mode by name, or the format
    constant [video_format::x576p2500]. *)
Inductive video_format_desc :=
  | video_mode (name : string)
  | x576p2500.

(** A channel: its index, its format and the consumers added to its output,
    each with the configuration it was created from. *)
Record video_channel := mk_video_channel {
  index : Z;
  format_desc : video_format_desc;
  output : list (string * wptree)
}.

Record thumbnail_generator := mk_thumbnail_generator {
  scan_interval_millis : Z;
  width : Z;
  height : Z;
  thumbnail_format : video_format_desc;
  generate_delay_millis : Z
}.

Inductive log_entry :=
  | info (msg : string)
  | warning (msg : string)
  | current_exception (e : exception).

(** The members that the setup functions write.  [primary_amcp_server_]
    points into [async_servers_] and is the position of its target there;
    [osc_subscribe_] is the default port of the client lifecycle factory
    added to the primary server, if one was added. *)
Record impl := mk_impl {
  async_servers_ : list AsyncEventServer;
  primary_amcp_server_ : option nat;
  osc_subscribe_ : option Z;
  predefined_osc_subscriptions_ : list (string * Z);
  channels_ : list video_channel;
  thumbnail_generator_ : option thumbnail_generator;
  log_ : list log_entry
}.

(** The code outside this file. *)
Record externals := mk_externals {
  (** the stream translators of [int], [bool] and [unsigned short] *)
  translate_int : string -> option Z;
  translate_bool : string -> option bool;
  translate_ushort : string -> option Z;
  (** whether [video_format_desc(name).format] is not [invalid] *)
  known_video_mode : string -> bool;
  (** creating a consumer of a known kind and adding it to the output:
      the exception raised, if any *)
  add_consumer : string -> wptree -> option exception;
  (** constructing an [AsyncEventServer]: the exception raised, if any *)
  listen : protocol_strategy -> Z -> option exception;
  (** [address_v4::from_string]: the exception raised, if any *)
  address_from_string : string -> option exception
}.

Definition CASPAR_LOG (e : log_entry) (s : impl) : impl :=
  mk_impl (async_servers_ s) (primary_amcp_server_ s) (osc_subscribe_ s)
          (predefined_osc_subscriptions_ s) (channels_ s)
          (thumbnail_generator_ s) (log_ s ++ [e]).

(** Conversion of an [int] to [unsigned int]. *)
Definition to_unsigned_int (z : Z) : Z := z mod 4294967296.

(** ** [create_protocol] *)

Definition create_protocol (name : string) : exception + protocol_strategy :=
  if iequals name "AMCP" then inr AMCPProtocolStrategy
  else if iequals name "CII" then inr CIIProtocolStrategy
  else if iequals name "CLOCK" then inr clk_protocol_strategy
  else inl (caspar_exception (Some "name") (Some name) "Invalid protocol").

(** The name under which [create_protocol] makes a strategy. *)
Definition strategy_name (p : protocol_strategy) : string :=
  match p with
  | AMCPProtocolStrategy => "AMCP"
  | CIIProtocolStrategy => "CII"
  | clk_protocol_strategy => "CLOCK"
  end.

Section Setup.

Variable ext : externals.

(** ** [setup_controllers] *)

(** The body of the try block for one controller. *)
Definition try_controller (xml_controller : string * wptree) (s : impl)
  : exception + impl :=
  let name := xml_controller.1 in
  match get wstring ["protocol"] xml_controller.2 with
  | inl e => inl e
  | inr protocol =>
      if String.eqb name "tcp" then
        let port :=
          to_unsigned_int
            (get_or (translate_int ext) ["port"] 5250 xml_controller.2) in
        match create_protocol protocol with
        | inl e => inl e
        | inr strategy =>
            match listen ext strategy port with
            | Some e => inl e
            | None =>
                let asyncbootstrapper := mk_AsyncEventServer strategy port in
                let position := length (async_servers_ s) in
                let primary :=
                  match primary_amcp_server_ s with
                  | None =>
                      if iequals protocol "AMCP" then Some position else None
                  | Some p => Some p
                  end in
                inr (mk_impl (async_servers_ s ++ [asyncbootstrapper]) primary
                       (osc_subscribe_ s) (predefined_osc_subscriptions_ s)
                       (channels_ s) (thumbnail_generator_ s) (log_ s))
            end
        end
      else inr (CASPAR_LOG (warning ("Invalid controller: " ++ name)) s)
  end.

(** One turn of the loop: the try block and its [catch(...)]. *)
Definition setup_controller (s : impl) (xml_controller : string * wptree)
  : impl :=
  match try_controller xml_controller s with
  | inl e => CASPAR_LOG (current_exception e) s
  | inr s' => s'
  end.

Definition setup_controllers (pt : wptree) (s : impl) : exception + impl :=
  match get_child ["configuration"; "controllers"] pt with
  | inl e => inl e
  | inr controllers =>
      inr (fold_left setup_controller (children controllers) s)
  end.

(** ** [setup_channels] *)

(** Whether the name is one that the consumer loop creates a consumer for. *)
Definition consumer_kind (name : string) : bool :=
  String.eqb name "screen" || String.eqb name "bluefish"
  || String.eqb name "decklink" || String.eqb name "file"
  || String.eqb name "system-audio".

(** One turn of the consumer loop: the state of the server and the output of
    the channel being made. *)
Definition setup_consumer (acc : impl * list (string * wptree))
  (xml_consumer : string * wptree) : impl * list (string * wptree) :=
  let '(s, out) := acc in
  let name := xml_consumer.1 in
  if consumer_kind name then
    match add_consumer ext name xml_consumer.2 with
    | Some e => (CASPAR_LOG (current_exception e) s, out)
    | None => (s, out ++ [xml_consumer])
    end
  else if negb (String.eqb name "<xmlcomment>") then
    (CASPAR_LOG (warning ("Invalid consumer: " ++ name)) s, out)
  else (s, out).

Definition push_channel (c : video_channel) (s : impl) : impl :=
  mk_impl (async_servers_ s) (primary_amcp_server_ s) (osc_subscribe_ s)
          (predefined_osc_subscriptions_ s) (channels_ s ++ [c])
          (thumbnail_generator_ s) (log_ s).

(** One turn of the channel loop. *)
Definition setup_channel (s : impl) (xml_channel : string * wptree)
  : exception + impl :=
  let mode := get_or wstring ["video-mode"] "PAL" xml_channel.2 in
  if negb (known_video_mode ext mode) then
    inl (caspar_exception None None "Invalid video-mode.")
  else
    let channel_index := Z.of_nat (length (channels_ s)) + 1 in
    match get_child ["consumers"] xml_channel.2 with
    | inl e => inl e
    | inr consumers =>
        let '(s', out) :=
          fold_left setup_consumer (children consumers) (s, []) in
        inr (push_channel
               (mk_video_channel channel_index (video_mode mode) out) s')
    end.

(** The channel loop: it ends at the first exception. *)
Fixpoint setup_channel_loop (xml_channels : list (string * wptree)) (s : impl)
  : exception + impl :=
  match xml_channels with
  | [] => inr s
  | xml_channel :: rest =>
      match setup_channel s xml_channel with
      | inl e => inl e
      | inr s' => setup_channel_loop rest s'
      end
  end.

(** [setup_channels].  The channel entries are those of the argument [pt];
    the channel-grid switch is read from the global [env::properties()],
    whatever the argument is: [env_properties] is that global. *)
Definition setup_channels (env_properties pt : wptree) (s : impl)
  : exception + impl :=
  match get_child ["configuration"; "channels"] pt with
  | inl e => inl e
  | inr xml_channels =>
      match setup_channel_loop (children xml_channels) s with
      | inl e => inl e
      | inr s' =>
          if get_or (translate_bool ext) ["configuration"; "channel-grid"]
                    false env_properties
          then inr (push_channel
                      (mk_video_channel
                         (Z.of_nat (length (channels_ s')) + 1) x576p2500 [])
                      s')
          else inr s'
      end
  end.

(** ** [setup_thumbnail_generation] *)

Definition setup_thumbnail_generation (pt : wptree) (s : impl) : impl :=
  if negb (get_or (translate_bool ext)
                  ["configuration"; "thumbnails"; "generate-thumbnails"]
                  true pt)
  then s
  else
    let generator :=
      mk_thumbnail_generator
        (get_or (translate_int ext)
                ["configuration"; "thumbnails"; "scan-interval-millis"] 5000 pt)
        (get_or (translate_int ext)
                ["configuration"; "thumbnails"; "width"] 256 pt)
        (get_or (translate_int ext)
                ["configuration"; "thumbnails"; "height"] 144 pt)
        (video_mode
           (get_or wstring ["configuration"; "thumbnails"; "video-mode"]
                   "720p2500" pt))
        (get_or (translate_int ext)
                ["configuration"; "thumbnails"; "generate-delay-millis"]
                2000 pt) in
    CASPAR_LOG (info "Initialized thumbnail generator.")
      (mk_impl (async_servers_ s) (primary_amcp_server_ s) (osc_subscribe_ s)
               (predefined_osc_subscriptions_ s) (channels_ s)
               (Some generator) (log_ s)).

(** ** [setup_osc] *)

(** One turn of the loop over the predefined clients: nothing is caught. *)
Definition predefined_client (predefined_client : string * wptree)
  : exception + (string * Z) :=
  match get wstring ["address"] predefined_client.2 with
  | inl e => inl e
  | inr address =>
      match get (translate_ushort ext) ["port"] predefined_client.2 with
      | inl e => inl e
      | inr port =>
          match address_from_string ext address with
          | Some e => inl e
          | None => inr (address, port)
          end
      end
  end.

Fixpoint predefined_clients_loop (clients : list (string * wptree))
  (subscriptions : list (string * Z)) : exception + list (string * Z) :=
  match clients with
  | [] => inr subscriptions
  | client :: rest =>
      match predefined_client client with
      | inl e => inl e
      | inr token => predefined_clients_loop rest (subscriptions ++ [token])
      end
  end.

Definition setup_osc (pt : wptree) (s : impl) : exception + impl :=
  let default_port :=
    get_or (translate_ushort ext) ["configuration"; "osc"; "default-port"]
           6250 pt in
  let predefined_clients :=
    get_child_optional ["configuration"; "osc"; "predefined-clients"] pt in
  match
    match predefined_clients with
    | Some clients =>
        predefined_clients_loop (children clients)
                                (predefined_osc_subscriptions_ s)
    | None => inr (predefined_osc_subscriptions_ s)
    end
  with
  | inl e => inl e
  | inr subscriptions =>
      inr (mk_impl (async_servers_ s) (primary_amcp_server_ s)
             (match primary_amcp_server_ s with
              | Some _ => Some default_port
              | None => osc_subscribe_ s
              end)
             subscriptions (channels_ s) (thumbnail_generator_ s) (log_ s))
  end.

(** ** The constructor *)

(** The state when the body of the constructor begins. *)
Definition members : impl := mk_impl [] None None [] [] None [].

Definition modules : list string :=
  ["ffmpeg"; "bluefish"; "decklink"; "oal"; "ogl"; "image"; "flash"; "psd"].

(** The body of the constructor; [properties] is [env::properties()], which
    the constructor hands to each setup function. *)
Definition new_impl (properties : wptree) : exception + impl :=
  let s := fold_left
             (fun s m =>
                CASPAR_LOG (info ("Initialized " ++ m ++ " module.")) s)
             modules members in
  match setup_channels properties properties s with
  | inl e => inl e
  | inr s =>
      let s := CASPAR_LOG (info "Initialized channels.") s in
      let s := setup_thumbnail_generation properties s in
      let s := CASPAR_LOG (info "Initialized thumbnail generator.") s in
      match setup_controllers properties s with
      | inl e => inl e
      | inr s =>
          let s := CASPAR_LOG (info "Initialized controllers.") s in
          match setup_osc properties s with
          | inl e => inl e
          | inr s => inr (CASPAR_LOG (info "Initialized osc.") s)
          end
      end
  end.

(** ** Notions used in the statements *)

(** Whether a consumer entry ends up in the output of its channel: it is of
    a kind the loop creates, and creating and adding it does not raise. *)
Definition consumer_is_added (xml_consumer : string * wptree) : bool :=
  consumer_kind xml_consumer.1
  && match add_consumer ext xml_consumer.1 xml_consumer.2 with
     | None => true
     | Some _ => false
     end.

(** The consumers of a channel entry that end up in the output of its
    channel, in the order of the configuration. *)
Definition added_consumers (xml_channel : string * wptree)
  : list (string * wptree) :=
  match get_child_optional ["consumers"] xml_channel.2 with
  | Some consumers => List.filter consumer_is_added (children consumers)
  | None => []
  end.

(** The channel of a channel entry that finds [n] channels on the server:
    index [n + 1], the video mode of the entry (PAL when it names none) and
    the consumers of the entry that were added. *)
Definition configured_channel (n : nat) (xml_channel : string * wptree)
  : video_channel :=
  mk_video_channel (Z.of_nat n + 1)
    (video_mode (get_or wstring ["video-mode"] "PAL" xml_channel.2))
    (added_consumers xml_channel).

(** The diagnostics channel that finds [n] channels on the server. *)
Definition grid_channel (n : nat) : video_channel :=
  mk_video_channel (Z.of_nat n + 1) x576p2500 [].

(** A channel entry that [setup_channel] accepts: its video mode is known
    and it has a [consumers] child. *)
Definition well_formed_channel (xml_channel : string * wptree) : Prop :=
  known_video_mode ext (get_or wstring ["video-mode"] "PAL" xml_channel.2)
  = true
  /\ is_Some (get_child_optional ["consumers"] xml_channel.2).

End Setup.

(** Everything but the log. *)
Definition without_log (s : impl) :=
  (async_servers_ s, primary_amcp_server_ s, osc_subscribe_ s,
   predefined_osc_subscriptions_ s, channels_ s, thumbnail_generator_ s).

(** The primary server is the first of the servers that speaks AMCP, and
    there is none when no server does. *)
Definition primary_is_first_amcp (s : impl) : Prop :=
  match primary_amcp_server_ s with
  | Some i =>
      (exists srv, async_servers_ s !! i = Some srv
                   /\ protocol_ srv = AMCPProtocolStrategy)
      /\ forall j srv, (j < i)%nat -> async_servers_ s !! j = Some srv ->
                       protocol_ srv <> AMCPProtocolStrategy
  | None =>
      forall srv, srv ∈ async_servers_ s ->
                  protocol_ srv <> AMCPProtocolStrategy
  end.

(** The channels carry the indices 1, 2, ... in their order. *)
Definition numbered (s : impl) : Prop :=
  forall i c, channels_ s !! i = Some c -> index c = Z.of_nat i + 1.

(** The predefined clients of a configuration. *)
Definition predefined_clients (pt : wptree) : list (string * wptree) :=
  match get_child_optional ["configuration"; "osc"; "predefined-clients"] pt
  with
  | Some clients => children clients
  | None => []
  end.

(** What an XML comment is in a property tree. *)
Definition xmlcomment (text : string) : string * wptree :=
  ("<xmlcomment>", node text []).

(** ** A concrete configuration *)

(** Decimal digits only. *)
Definition decimal (s : string) : option Z :=
  if String.eqb s "" then None
  else Z.of_uint <$> DecimalString.NilEmpty.uint_of_string s.

Definition boolean (s : string) : option bool :=
  if String.eqb s "true" then Some true
  else if String.eqb s "false" then Some false
  else None.

(** An environment in which numbers are decimal, the video modes PAL and
    720p5000 are known and nothing outside this file raises. *)
Definition quiet : externals :=
  mk_externals decimal boolean
    (fun s => match decimal s with
              | Some z => if (z <=? 65535)%Z then Some z else None
              | None => None
              end)
    (fun m => String.eqb m "PAL" || String.eqb m "720p5000")
    (fun _ _ => None) (fun _ _ => None) (fun _ => None).

Definition leaf (key text : string) : string * wptree := (key, node text []).

Definition sample_channels : wptree :=
  node ""
    [("channel",
      node "" [leaf "video-mode" "720p5000";
               ("consumers",
                node "" [("screen", node "" []); xmlcomment "a comment";
                         ("projector", node "" [])])]);
     ("channel",
      node "" [("consumers", node "" [("decklink", node "" [])])])].

Definition sample_controllers : wptree :=
  node ""
    [("tcp", node "" [leaf "port" "5250"; leaf "protocol" "CII"]);
     xmlcomment "a comment";
     ("tcp", node "" [leaf "port" "5251"; leaf "protocol" "amcp"]);
     ("udp", node "" [leaf "protocol" "AMCP"]);
     ("tcp", node "" [leaf "protocol" "Amcp"])].

Definition sample_osc : wptree :=
  node ""
    [leaf "default-port" "6251";
     ("predefined-clients",
      node "" [("predefined-client",
                node "" [leaf "address" "127.0.0.1"; leaf "port" "5253"])])].

Definition sample_configuration : wptree :=
  node ""
    [("configuration",
      node "" [("channels", sample_channels);
               leaf "channel-grid" "true";
               ("controllers", sample_controllers);
               ("osc", sample_osc);
               ("thumbnails", node "" [leaf "generate-thumbnails" "false"])])].

(** What a setup function has returned, or the initial state if it raised. *)
Definition returned (r : exception + impl) : impl :=
  match r with
  | inr s => s
  | inl _ => members
  end.

End server.
(** * Properties *)

(** ** Arithmetic of the progress value *)

Section Progress.

Lemma to_ushort_small (z : Z) : 0 <= z <= USHRT_MAX -> to_ushort z = z.
Proof. unfold to_ushort, USHRT_MAX. intros H. apply Z.mod_small. lia. Qed.

Lemma to_ushort_range (z : Z) : 0 <= to_ushort z <= USHRT_MAX.
Proof.
  unfold to_ushort, USHRT_MAX.
  pose proof (Z.mod_pos_bound z 65536). lia.
Qed.

Lemma to_ushort_wrap : to_ushort (USHRT_MAX + 1) = 0.
Proof. reflexivity. Qed.

(** The truncation in [compose] is the integer quotient. *)
Lemma double_to_int_quotient (c d : Z) :
  0 <= c -> 0 < d ->
  double_to_int (to_double c / to_double d * 256)%Q = 256 * c / d.
Proof.
  intros Hc Hd. unfold double_to_int, to_double.
  assert (Heq : (inject_Z c / inject_Z d * 256 ==
                 inject_Z (256 * c) / inject_Z d)%Q).
  { rewrite inject_Z_mult. change (inject_Z 256) with 256%Q. field.
    intros H0. apply (inject_Z_injective d 0) in H0. lia. }
  assert (Hpos : (0 <= inject_Z c / inject_Z d * 256)%Q).
  { rewrite Heq.
    apply Qle_trans with (inject_Z (Qfloor (inject_Z (256 * c) / inject_Z d))).
    - rewrite <- Zdiv_Qdiv. change 0%Q with (inject_Z 0).
      rewrite <- Zle_Qle. apply Z.div_pos; lia.
    - apply Qfloor_le. }
  apply Qle_bool_iff in Hpos. rewrite Hpos.
  rewrite (Qfloor_comp _ _ Heq). symmetry. apply Zdiv_Qdiv.
Qed.

Lemma quotient_volume_range (c d : Z) :
  0 <= c <= d -> 0 < d -> 0 <= 256 * c / d <= 256.
Proof.
  intros Hc Hd. split.
  - apply Z.div_pos; lia.
  - apply Z.div_le_upper_bound; lia.
Qed.

(** With a volume in [0, 256] the cast to [short] in [set_volume] never
    wraps: the scaled sample is the floor of [s * v / 256]. *)
Lemma scale_sample_no_wrap (v s : Z) :
  0 <= v <= 256 -> -32768 <= s <= 32767 ->
  scale_sample v s = s * v / 256 /\ -32768 <= scale_sample v s <= 32767.
Proof.
  intros Hv Hs. unfold scale_sample, to_short.
  rewrite Z.shiftr_div_pow2 by lia. change (2 ^ 8) with 256.
  assert (Hlo : -32768 <= s * v / 256).
  { apply Z.div_le_lower_bound; nia. }
  assert (Hhi : s * v / 256 <= 32767).
  { apply Z.div_le_upper_bound; nia. }
  rewrite Z.mod_small by lia. lia.
Qed.

End Progress.

(** ** The rational reading against binary64 *)

(** For every duration up to 256 frames and every counter value up to the
    duration, the binary64 volume truncates to the value that the rational
    reading gives. *)
Lemma binary64_volume_is_quotient :
  forallb (fun '(c, d) =>
             binary64_truncates_to (binary64_progress_volume c d)
               (double_to_int (to_double c / to_double d * 256)%Q))
          (counters_up_to 256) = true.
Proof. vm_compute. reflexivity. Qed.

(** ** Initialization *)

Lemma initialize_stores_factory fac t w t' w' :
  initialize fac t w = Some (t', w') ->
  factory_ t' = fac
  /\ exists d, dest_producer_ t = Some d /\ factory (producers w' d) = fac.
Proof.
  unfold initialize. destruct (dest_producer_ t) as [d|]; [|discriminate].
  intros [= <- <-]. split; [reflexivity|]. exists d. split; [reflexivity|].
  simpl. rewrite fn_lookup_insert. reflexivity.
Qed.

(** ** Rendering one child *)

Section Children.

Variable fac : frame_factory_ptr.

Lemma render_frame_ref_null fuel w :
  render_frame_ref fuel fac w None = Some (None, None, w).
Proof. destruct fuel; reflexivity. Qed.

Lemma render_frame_ref_returns fuel w p f :
  next_outcome w p = returns (Some f) ->
  render_frame_ref fuel fac w (Some p)
  = Some (Some f, Some p, (producer_render_frame p w).2).
Proof.
  unfold next_outcome. intros H. destruct fuel; simpl; rewrite H; reflexivity.
Qed.

Lemma render_frame_ref_throws fuel w p :
  next_outcome w p = throws ->
  exists w', render_frame_ref fuel fac w (Some p) = Some (None, None, w')
             /\ frames w' = frames w
             /\ log w' = log w ++ [current_exception;
                            warning "Removed renderer from transition."].
Proof.
  unfold next_outcome. intros H. eexists.
  split; [destruct fuel; simpl; rewrite H; reflexivity|]. split; reflexivity.
Qed.

Lemma render_frame_ref_stop fuel w p :
  next_outcome w p = returns None ->
  following (producers w p) = None ->
  render_frame_ref fuel fac w (Some p)
  = Some (None, Some p, (producer_render_frame p w).2).
Proof.
  unfold next_outcome. intros H Hf.
  destruct fuel; simpl; rewrite H;
    unfold producer_get_following_producer; simpl;
    rewrite fn_lookup_insert; simpl; rewrite Hf; reflexivity.
Qed.

Lemma render_frame_ref_advance fuel w p fo :
  next_outcome w p = returns None ->
  following (producers w p) = Some fo ->
  render_frame_ref (S fuel) fac w (Some p)
  = render_frame_ref fuel fac
      (producer_set_leading_producer fo (Some p)
         (producer_initialize fo fac (producer_render_frame p w).2))
      (Some fo).
Proof.
  unfold next_outcome. intros H Hf.
  simpl; rewrite H;
    unfold producer_get_following_producer; simpl;
    rewrite fn_lookup_insert; simpl; rewrite Hf; reflexivity.
Qed.

(** The barrier: a child that is gone or raises yields no frame, leaves the
    reference null, and nothing escapes. *)
Lemma render_frame_ref_barrier fuel w producer :
  absent_or_raising w producer ->
  exists w', render_frame_ref fuel fac w producer = Some (None, None, w')
             /\ frames w' = frames w.
Proof.
  destruct producer as [p|]; simpl; intros H.
  - destruct (render_frame_ref_throws fuel w p H) as (w' & E & Hf & _).
    exists w'. split; assumption.
  - exists w. split; [apply render_frame_ref_null | reflexivity].
Qed.

(** Rendering a child never touches the frame heap. *)
Lemma render_frame_ref_frames fuel : forall w producer frame producer' w',
  render_frame_ref fuel fac w producer = Some (frame, producer', w') ->
  frames w' = frames w.
Proof.
  induction fuel as [|fuel IH]; intros w [p|] frame producer' w'; simpl;
    try (intros [= <- <- <-]; reflexivity).
  - destruct (behaviour (producers w p) (calls (producers w p))) as [[f|]|];
      try (intros [= <- <- <-]; reflexivity).
    destruct (producer_get_following_producer p _);
      [discriminate | intros [= <- <- <-]; reflexivity].
  - destruct (behaviour (producers w p) (calls (producers w p))) as [[f|]|];
      try (intros [= <- <- <-]; reflexivity).
    destruct (producer_get_following_producer p _) as [fo|];
      [| intros [= <- <- <-]; reflexivity].
    intros H. apply IH in H. exact H.
Qed.

Lemma always_frames_next w p :
  always_frames w p -> exists f, next_outcome w p = returns (Some f).
Proof. intros H. apply H. Qed.

Lemma always_frames_render w p q :
  always_frames w q -> always_frames (producer_render_frame p w).2 q.
Proof.
  unfold always_frames. intros H n. simpl.
  destruct (decide (p = q)) as [->|Hne].
  - rewrite fn_lookup_insert. simpl. apply H.
  - rewrite fn_lookup_insert_ne by exact Hne. apply H.
Qed.

End Children.

(** ** Composition *)

Section Compose.

Variable t : implementation.

Lemma compose_cut dest src h :
  type (info_ t) = cut -> compose t dest src h = (src, h).
Proof. intros H. unfold compose. rewrite decide_True by exact H. reflexivity. Qed.

Lemma compose_no_dest src h :
  type (info_ t) <> cut -> compose t None src h = (None, h).
Proof. intros H. unfold compose. rewrite decide_False by exact H. reflexivity. Qed.

Lemma dom_blended d src h : dom (blended t d src h) = dom h.
Proof.
  unfold blended, transform, set_volume.
  destruct (type (info_ t)), (direction (info_ t)), src;
    rewrite ?dom_alter_L; reflexivity.
Qed.

(** The composite is a new object; every other address holds what the
    blending left there. *)
Lemma compose_composite d src h :
  type (info_ t) <> cut ->
  exists c h', compose t (Some d) src h = (Some c, h')
    /\ h !! c = None
    /\ h' !! c = Some (mk_gpu_frame [] 1 0 0 unit_rectangle (layers d src))
    /\ forall i, i <> c -> h' !! i = blended t d src h !! i.
Proof.
  intros H. unfold compose. rewrite decide_False by exact H.
  fold (blended t d src h).
  set (hb := blended t d src h).
  set (c := fresh (dom hb)).
  assert (Hc : hb !! c = None).
  { apply not_elem_of_dom. apply is_fresh. }
  exists c. eexists. split; [reflexivity|]. split; [|split].
  - apply not_elem_of_dom. rewrite <- (dom_blended d src h).
    apply is_fresh.
  - destruct src as [s|]; simpl.
    + rewrite lookup_alter_eq, lookup_alter_eq, lookup_insert_eq. reflexivity.
    + rewrite lookup_alter_eq, lookup_insert_eq. reflexivity.
  - intros i Hi. destruct src as [s|]; simpl.
    + rewrite lookup_alter_ne, lookup_alter_ne, lookup_insert_ne by congruence.
      reflexivity.
    + rewrite lookup_alter_ne, lookup_insert_ne by congruence. reflexivity.
Qed.


Lemma blended_frames d src h i :
  frames_ <$> blended t d src h !! i = frames_ <$> h !! i.
Proof. heap_lookup. Qed.

Lemma blended_dest_audio d src h :
  src <> Some d -> type (info_ t) <> cut ->
  audio_data_ <$> blended t d src h !! d
  = (fun f => map (scale_sample (progress_volume t)) (audio_data_ f))
      <$> h !! d.
Proof. intros Hs Hc. heap_lookup. Qed.

Lemma blended_source_audio d s h :
  s <> d -> type (info_ t) <> cut ->
  audio_data_ <$> blended t d (Some s) h !! s
  = (fun f => map (scale_sample (256 - progress_volume t)) (audio_data_ f))
      <$> h !! s.
Proof. intros Hs Hc. heap_lookup. Qed.

Lemma blended_mix_alpha d src h :
  src <> Some d -> type (info_ t) = mix ->
  alpha_ <$> blended t d src h !! d = (fun _ => progress t) <$> h !! d.
Proof. intros Hs Hc. heap_lookup. Qed.

Lemma blended_slide_left_dest d src h :
  src <> Some d -> type (info_ t) = slide ->
  direction (info_ t) = from_left ->
  (fun f => (x_ f, y_ f)) <$> blended t d src h !! d
  = (fun _ => ((-1 + progress t)%Q, 0%Q)) <$> h !! d.
Proof. intros Hs Hc Hd. heap_lookup. Qed.

Lemma blended_slide_source d s h :
  s <> d -> type (info_ t) = slide ->
  (fun f => (x_ f, y_ f, alpha_ f, texcoords_ f))
    <$> blended t d (Some s) h !! s
  = (fun f => (x_ f, y_ f, alpha_ f, texcoords_ f)) <$> h !! s.
Proof. intros Hs Hc. heap_lookup. Qed.

End Compose.

(** ** One call of [render_frame] *)

Section RenderFrame.

Variable fuel : nat.


Lemma render_frame_exhausted t w :
  current_frame_ t >= duration (info_ t) ->
  render_frame fuel t w = Some (None, ticked t, w).
Proof.
  intros H. unfold render_frame. simpl.
  rewrite decide_True by exact H. reflexivity.
Qed.

Lemma render_frame_running t w dest dp w1 source sp w2 :
  current_frame_ t < duration (info_ t) ->
  render_frame_ref fuel (factory_ t) w (dest_producer_ t)
    = Some (dest, dp, w1) ->
  render_frame_ref fuel (factory_ t) w1 (source_producer_ t)
    = Some (source, sp, w2) ->
  render_frame fuel t w
  = Some ((compose (with_children sp dp (ticked t)) dest source (frames w)).1,
          with_children sp dp (ticked t),
          with_frames
            (compose (with_children sp dp (ticked t)) dest source (frames w)).2
            w2).
Proof.
  intros H Hd Hs. unfold render_frame. simpl.
  rewrite decide_False by lia. rewrite Hd. simpl. rewrite Hs. simpl.
  assert (Hf : frames w2 = frames w).
  { rewrite (render_frame_ref_frames _ _ _ _ _ _ _ Hs).
    apply (render_frame_ref_frames _ _ _ _ _ _ _ Hd). }
  rewrite Hf. fold (ticked t).
  destruct (compose (with_children sp dp (ticked t)) dest source (frames w)).
  reflexivity.
Qed.

(** Both children hand over a frame: the pointers stay as they are. *)
Lemma render_frame_both t w d s fd fs :
  current_frame_ t < duration (info_ t) ->
  dest_producer_ t = Some d -> source_producer_ t = Some s ->
  next_outcome w d = returns (Some fd) ->
  next_outcome (producer_render_frame d w).2 s = returns (Some fs) ->
  render_frame fuel t w
  = Some ((compose (ticked t) (Some fd) (Some fs) (frames w)).1,
          ticked t,
          with_frames (compose (ticked t) (Some fd) (Some fs) (frames w)).2
            (producer_render_frame s (producer_render_frame d w).2).2).
Proof.
  intros H Hd Hs Hfd Hfs.
  pose proof (render_frame_ref_returns (factory_ t) fuel _ _ _ Hfd) as E1.
  pose proof (render_frame_ref_returns (factory_ t) fuel _ _ _ Hfs) as E2.
  rewrite <- Hd in E1. rewrite <- Hs in E2.
  rewrite (render_frame_running _ _ _ _ _ _ _ _ H E1 E2).
  rewrite Hd, Hs.
  replace (with_children (Some s) (Some d) (ticked t)) with (ticked t);
    [reflexivity|].
  rewrite <- Hd, <- Hs. destruct t; reflexivity.
Qed.

(** While both children always hand over frames, a call before exhaustion
    returns a frame: the source's own frame for [cut], a composite
    otherwise. *)
Lemma render_frame_emits t w d s :
  current_frame_ t < duration (info_ t) ->
  dest_producer_ t = Some d -> source_producer_ t = Some s ->
  always_frames w d -> always_frames w s ->
  exists r w', render_frame fuel t w = Some (Some r, ticked t, w')
               /\ always_frames w' d /\ always_frames w' s.
Proof.
  intros H Hd Hs Ad As.
  destruct (always_frames_next _ _ Ad) as [fd Hfd].
  pose proof (always_frames_render w d s As) as As1.
  destruct (always_frames_next _ _ As1) as [fs Hfs].
  rewrite (render_frame_both t w d s fd fs H Hd Hs Hfd Hfs).
  assert (Ad2 : always_frames
                  (producer_render_frame s (producer_render_frame d w).2).2 d)
    by (apply always_frames_render, always_frames_render, Ad).
  assert (As2 : always_frames
                  (producer_render_frame s (producer_render_frame d w).2).2 s)
    by (apply always_frames_render, As1).
  destruct (decide (type (info_ (ticked t)) = cut)) as [Hc|Hc].
  - rewrite (compose_cut _ _ _ _ Hc). simpl.
    eexists _, _. split; [reflexivity|]. split; assumption.
  - destruct (compose_composite (ticked t) fd (Some fs) (frames w) Hc)
      as (c & h' & E & _). rewrite E. simpl.
    eexists _, _. split; [reflexivity|]. split; assumption.
Qed.

End RenderFrame.

(** ** Runs of [render_frame] *)

Section Runs.

Variable fuel : nat.

Lemma render_frames_S n t w :
  render_frames (S n) fuel t w
  = match render_frame fuel t w with
    | None => None
    | Some (r, t1, w1) =>
        match render_frames n fuel t1 w1 with
        | None => None
        | Some (rs, t2, w2) => Some (r :: rs, t2, w2)
        end
    end.
Proof.
  simpl. destruct (render_frame fuel t w) as [[[r t1] w1]|]; simpl;
    [|reflexivity].
  destruct (render_frames n fuel t1 w1) as [[[rs t2] w2]|]; reflexivity.
Qed.

Lemma render_frames_snoc n : forall t w rs t1 w1 r t2 w2,
  render_frames n fuel t w = Some (rs, t1, w1) ->
  render_frame fuel t1 w1 = Some (r, t2, w2) ->
  render_frames (S n) fuel t w = Some (rs ++ [r], t2, w2).
Proof.
  induction n as [|n IH]; intros t w rs t1 w1 r t2 w2.
  - simpl. intros [= <- <- <-] E. rewrite E. reflexivity.
  - intros Hn E. rewrite render_frames_S in Hn.
    rewrite (render_frames_S (S n)).
    destruct (render_frame fuel t w) as [[[r0 t0] w0]|]; [|discriminate].
    destruct (render_frames n fuel t0 w0) as [[[rs0 t3] w3]|] eqn:En;
      [|discriminate].
    injection Hn as <- <- <-.
    rewrite (IH _ _ _ _ _ _ _ _ En E). reflexivity.
Qed.

(** The counter follows the number of calls, modulo 2^16, whatever the
    children do. *)
Lemma render_frame_counter t w r t' w' :
  render_frame fuel t w = Some (r, t', w') ->
  current_frame_ t' = to_ushort (current_frame_ t + 1)
  /\ info_ t' = info_ t.
Proof.
  unfold render_frame. simpl. case_decide.
  - intros [= <- <- <-]. split; reflexivity.
  - destruct (render_frame_ref fuel _ w _) as [[[dest dp] w1]|];
      [|discriminate]. simpl.
    destruct (render_frame_ref fuel _ w1 _) as [[[source sp] w2]|];
      [|discriminate]. simpl.
    destruct (compose _ _ _ _). intros [= <- <- <-]. split; reflexivity.
Qed.

Lemma render_frames_counter n : forall t w rs t' w',
  0 <= current_frame_ t -> current_frame_ t + Z.of_nat n <= USHRT_MAX ->
  render_frames n fuel t w = Some (rs, t', w') ->
  current_frame_ t' = current_frame_ t + Z.of_nat n
  /\ info_ t' = info_ t /\ length rs = n.
Proof.
  induction n as [|n IH]; intros t w rs t' w' H0 Hn.
  - simpl. intros [= <- <- <-]. split; [lia|split; reflexivity].
  - rewrite render_frames_S.
    destruct (render_frame fuel t w) as [[[r0 t0] w0]|] eqn:E; [|discriminate].
    destruct (render_frame_counter _ _ _ _ _ E) as [Hc Hi].
    rewrite to_ushort_small in Hc by (unfold USHRT_MAX in *; lia).
    destruct (render_frames n fuel t0 w0) as [[[rs0 t3] w3]|] eqn:En;
      [|discriminate].
    intros [= <- <- <-].
    assert (H1 : 0 <= current_frame_ t0) by lia.
    assert (H2 : current_frame_ t0 + Z.of_nat n <= USHRT_MAX) by lia.
    destruct (IH _ _ _ _ _ H1 H2 En) as (Hc' & Hi' & Hl).
    split; [lia|]. split; [congruence|]. simpl. congruence.
Qed.

(** Before exhaustion, with children that always hand over frames, every
    call emits a frame. *)
Lemma render_frames_emit n : forall t w d s,
  0 <= current_frame_ t ->
  current_frame_ t + Z.of_nat n <= duration (info_ t) ->
  representable (info_ t) ->
  dest_producer_ t = Some d -> source_producer_ t = Some s ->
  always_frames w d -> always_frames w s ->
  exists rs t' w',
    render_frames n fuel t w = Some (rs, t', w')
    /\ Forall is_Some rs /\ length rs = n
    /\ current_frame_ t' = current_frame_ t + Z.of_nat n
    /\ info_ t' = info_ t
    /\ dest_producer_ t' = Some d /\ source_producer_ t' = Some s
    /\ always_frames w' d /\ always_frames w' s.
Proof.
  induction n as [|n IH]; intros t w d s H0 Hn Hr Hd Hs Ad As.
  - exists [], t, w. simpl. repeat split; auto. lia.
  - destruct (render_frame_emits fuel t w d s ltac:(lia) Hd Hs Ad As)
      as (r & w1 & E & Ad1 & As1).
    assert (Hc : current_frame_ (ticked t) = current_frame_ t + 1).
    { simpl. apply to_ushort_small. unfold representable in Hr. lia. }
    assert (H1 : 0 <= current_frame_ (ticked t)) by lia.
    assert (H2 : current_frame_ (ticked t) + Z.of_nat n
                 <= duration (info_ (ticked t))) by (simpl in *; lia).
    destruct (IH (ticked t) w1 d s H1 H2 Hr Hd Hs Ad1 As1)
      as (rs & t' & w' & En & Hall & Hlen & Hcf & Hi & Hd' & Hs' & Ad' & As').
    exists (Some r :: rs), t', w'. rewrite render_frames_S, E, En.
    split; [reflexivity|]. split; [constructor; [eexists; reflexivity|exact Hall]|].
    split; [simpl; congruence|]. split; [lia|].
    repeat split; assumption.
Qed.


(** From exhaustion up to the end of the counter's range every call
    returns the sentinel and changes nothing but the counter. *)
Lemma render_frames_exhausted n : forall t w,
  duration (info_ t) <= current_frame_ t ->
  0 <= current_frame_ t <= USHRT_MAX ->
  current_frame_ t + Z.of_nat n <= USHRT_MAX + 1 ->
  exists t',
    render_frames n fuel t w = Some (repeat None n, t', w)
    /\ current_frame_ t' = to_ushort (current_frame_ t + Z.of_nat n)
    /\ info_ t' = info_ t
    /\ dest_producer_ t' = dest_producer_ t
    /\ source_producer_ t' = source_producer_ t.
Proof.
  induction n as [|n IH]; intros t w Hd Hr Hn.
  - exists t. simpl. repeat split; auto.
    rewrite Z.add_0_r. symmetry. apply to_ushort_small. exact Hr.
  - rewrite render_frames_S, render_frame_exhausted by lia.
    destruct n as [|n].
    + exists (ticked t). simpl. repeat split; reflexivity.
    + assert (Hc : current_frame_ (ticked t) = current_frame_ t + 1).
      { simpl. apply to_ushort_small. lia. }
      assert (H1 : duration (info_ (ticked t)) <= current_frame_ (ticked t))
        by (simpl in *; lia).
      assert (H2 : 0 <= current_frame_ (ticked t) <= USHRT_MAX) by lia.
      assert (H3 : current_frame_ (ticked t) + Z.of_nat (S n)
                   <= USHRT_MAX + 1) by lia.
      destruct (IH (ticked t) w H1 H2 H3) as (t' & En & Hcf & Hi & Hd' & Hs').
      exists t'. rewrite En. split; [reflexivity|].
      split; [rewrite Hcf, Hc; f_equal; lia|].
      repeat split; assumption.
Qed.

(** After 2^16 calls in all the counter is back at zero and the transition
    starts over. *)
Lemma render_frames_wrap t w d s :
  1 <= duration (info_ t) ->
  duration (info_ t) <= current_frame_ t ->
  0 <= current_frame_ t <= USHRT_MAX ->
  dest_producer_ t = Some d -> source_producer_ t = Some s ->
  always_frames w d -> always_frames w s ->
  exists t1,
    render_frames (Z.to_nat (USHRT_MAX + 1 - current_frame_ t)) fuel t w
    = Some (repeat None (Z.to_nat (USHRT_MAX + 1 - current_frame_ t)), t1, w)
    /\ exists r t' w', render_frame fuel t1 w = Some (Some r, t', w').
Proof.
  intros HD Hex Hr Hd Hs Ad As.
  destruct (render_frames_exhausted
              (Z.to_nat (USHRT_MAX + 1 - current_frame_ t)) t w Hex Hr
              ltac:(lia)) as (t1 & En & Hcf & Hi & Hd1 & Hs1).
  exists t1. split; [exact En|].
  replace (current_frame_ t + Z.of_nat (Z.to_nat (USHRT_MAX + 1 - current_frame_ t)))
    with (USHRT_MAX + 1) in Hcf by lia.
  rewrite to_ushort_wrap in Hcf.
  assert (Hlt : current_frame_ t1 < duration (info_ t1))
    by (rewrite Hcf, Hi; lia).
  assert (Hd2 : dest_producer_ t1 = Some d) by congruence.
  assert (Hs2 : source_producer_ t1 = Some s) by congruence.
  destruct (render_frame_emits fuel t1 w d s Hlt Hd2 Hs2 Ad As)
    as (r & w' & E & _).
  exists r, (ticked t1), w'. exact E.
Qed.

End Runs.

Lemma studio_always_frames p : always_frames studio p.
Proof. intros n. exists p. reflexivity. Qed.

(** ** The constructor *)

Lemma new_implementation_inr dest info fmt t0 :
  new_implementation dest info fmt = inr t0 ->
  exists d, dest = Some d
    /\ t0 = mk_implementation fmt None (Some d) 0 info None.
Proof.
  destruct dest as [d|]; simpl; [|discriminate].
  intros [= <-]. exists d. split; reflexivity.
Qed.

(** ** Before the first frame *)

(** The constructor leaves the counter at zero, and neither [initialize] nor
    [set_leading_producer] moves it: a transition of which no frame has been
    asked has its counter at zero, whether it has been initialized or not. *)
Lemma new_implementation_counter dest info fmt t :
  new_implementation dest info fmt = inr t ->
  current_frame_ t = 0 /\ info_ t = info.
Proof.
  intros H. destruct (new_implementation_inr _ _ _ _ H) as (d & _ & ->).
  split; reflexivity.
Qed.

Lemma set_leading_producer_counter producer t :
  current_frame_ (set_leading_producer producer t) = current_frame_ t
  /\ info_ (set_leading_producer producer t) = info_ t
  /\ factory_ (set_leading_producer producer t) = factory_ t.
Proof. repeat split; reflexivity. Qed.

Lemma initialize_counter fac t w t' w' :
  initialize fac t w = Some (t', w') ->
  current_frame_ t' = current_frame_ t /\ info_ t' = info_ t
  /\ factory_ t' = fac.
Proof.
  unfold initialize. destruct (dest_producer_ t); [|discriminate].
  intros [= <- <-]. repeat split; reflexivity.
Qed.

(** The state in which call number [k] (counted from 0) finds an object
    whose counter was at zero before call number 0. *)
Lemma kth_call_state fuel t0 w0 k rs t w :
  current_frame_ t0 = 0 ->
  representable (info_ t0) -> 0 <= k <= duration (info_ t0) ->
  render_frames (Z.to_nat k) fuel t0 w0 = Some (rs, t, w) ->
  current_frame_ t = k /\ info_ t = info_ t0.
Proof.
  intros H0 Hr Hk Hrun.
  unfold representable in Hr.
  apply render_frames_counter in Hrun; try lia.
  destruct Hrun as (Hc & Hi & _). split; [lia|exact Hi].
Qed.

(** ** Construction *)

(** C2, as amended.  The constructor raises exactly when [dest] is absent,
    and what it raises is the null-argument error for "dest"; with a dest it
    succeeds for every duration, zero included, and yields an object whose
    counter is 0 and whose source is absent. *)
Theorem construction_fails_iff_dest_absent dest info fmt :
  ((exists e, new_implementation dest info fmt = inl e) <-> dest = None)
  /\ (dest = None ->
      new_implementation dest info fmt = inl (null_argument "dest"))
  /\ (forall d, dest = Some d ->
      new_implementation dest info fmt
      = inr (mk_implementation fmt None (Some d) 0 info None)).
Proof.
  destruct dest as [d|]; simpl.
  - split; [split; [intros [e He]; discriminate | discriminate]|].
    split; [discriminate|]. intros d' [= ->]. reflexivity.
  - split; [split; [reflexivity | intros _; eexists; reflexivity]|].
    split; [reflexivity | discriminate].
Qed.

Lemma construction_fails_iff_dest_absent_witness :
  new_implementation None (mk_transition_info mix 25 from_left) "PAL"
    = inl (null_argument "dest")
  /\ new_implementation (Some 0%nat) (mk_transition_info mix 0 from_left) "PAL"
    = inr (mk_implementation "PAL" None (Some 0%nat) 0
             (mk_transition_info mix 0 from_left) None).
Proof.
  split.
  - apply (proj1 (proj2 (construction_fails_iff_dest_absent None _ _))).
    reflexivity.
  - apply (proj2 (proj2 (construction_fails_iff_dest_absent (Some 0%nat) _ _))).
    reflexivity.
Defined.

(** C2 as stated fails: a duration of zero is not rejected. *)
Lemma zero_duration_is_accepted :
  duration (mk_transition_info mix 0 from_left) = 0
  /\ ~ (exists e, new_implementation (Some 0%nat)
                    (mk_transition_info mix 0 from_left) "PAL" = inl e).
Proof. split; [reflexivity|]. intros [e He]. discriminate He. Qed.

(** A transition of duration zero is exhausted from its first call on. *)
Lemma zero_duration_exhausted fuel t w :
  duration (info_ t) = 0 -> 0 <= current_frame_ t ->
  render_frame fuel t w = Some (None, ticked t, w).
Proof. intros HD H0. apply render_frame_exhausted. lia. Qed.

(** ** Exhaustion *)





(** C3, evaluated.  Producer 0 follows producer 1 by a mix of duration 1.
    After two calls the counter (2) exceeds the duration, and the next 65534
    calls return the sentinel; the call after those finds the 16-bit counter
    back at zero and returns a frame again. *)
Theorem exhaustion_ends_when_counter_wraps :
  exists rs2 t2 w2,
    render_frames 2 0 (started (mk_transition_info mix 1 from_left)) studio
    = Some (rs2, t2, w2)
    /\ current_frame_ t2 > duration (info_ t2)
    /\ exists t3,
         render_frames (Z.to_nat 65534) 0 t2 w2
         = Some (repeat None (Z.to_nat 65534), t3, w2)
         /\ exists r t4 w4, render_frame 0 t3 w2 = Some (Some r, t4, w4).
Proof.
  set (t := started (mk_transition_info mix 1 from_left)).
  assert (F1 : 0 <= current_frame_ t) by (simpl; lia).
  assert (F2 : current_frame_ t + Z.of_nat 1 <= duration (info_ t))
    by (simpl; lia).
  assert (F3 : representable (info_ t))
    by (unfold representable, USHRT_MAX; simpl; lia).
  destruct (render_frames_emit 0 1 t studio 0%nat 1%nat F1 F2 F3
              eq_refl eq_refl (studio_always_frames _) (studio_always_frames _))
    as (rs & t1 & w1 & E1 & _ & _ & Hcf & Hi & Hd & Hs & Ad & As).
  simpl in Hcf, Hi.
  assert (E2 : render_frame 0 t1 w1 = Some (None, ticked t1, w1)).
  { apply render_frame_exhausted. rewrite Hcf, Hi. simpl. lia. }
  exists (rs ++ [None]), (ticked t1), w1.
  split; [exact (render_frames_snoc 0 _ _ _ _ _ _ _ _ _ E1 E2)|].
  assert (Hc2 : current_frame_ (ticked t1) = 2) by (simpl; rewrite Hcf; reflexivity).
  split; [rewrite Hc2; simpl; rewrite Hi; simpl; lia|].
  assert (HD : duration (info_ (ticked t1)) = 1) by (simpl; rewrite Hi; reflexivity).
  assert (G1 : 1 <= duration (info_ (ticked t1))) by lia.
  assert (G2 : duration (info_ (ticked t1)) <= current_frame_ (ticked t1)) by lia.
  assert (G3 : 0 <= current_frame_ (ticked t1) <= USHRT_MAX)
    by (unfold USHRT_MAX; lia).
  destruct (render_frames_wrap 0 (ticked t1) w1 0%nat 1%nat G1 G2 G3 Hd Hs Ad As)
    as (t3 & E3 & Hlast).
  rewrite Hc2 in E3. exists t3. split; [exact E3 | exact Hlast].
Qed.

(** ** Blending calls *)

Section Blend.

Variable fuel : nat.

(** A call before exhaustion of a transition other than [cut], with a dest
    frame at hand: the result is a freshly allocated composite over the
    frames of the children, and every older frame holds what the blending
    left in it. *)
Lemma render_frame_blend t w df dp w1 source sp w2 :
  type (info_ t) <> cut ->
  current_frame_ t < duration (info_ t) ->
  render_frame_ref fuel (factory_ t) w (dest_producer_ t)
    = Some (Some df, dp, w1) ->
  render_frame_ref fuel (factory_ t) w1 (source_producer_ t)
    = Some (source, sp, w2) ->
  exists c w',
    render_frame fuel t w = Some (Some c, with_children sp dp (ticked t), w')
    /\ frames w !! c = None
    /\ frames w' !! c
       = Some (mk_gpu_frame [] 1 0 0 unit_rectangle (layers df source))
    /\ forall i, i <> c ->
         frames w' !! i
         = blended (with_children sp dp (ticked t)) df source (frames w) !! i.
Proof.
  intros Hc Hlt Hd Hs.
  rewrite (render_frame_running fuel t w _ _ _ _ _ _ Hlt Hd Hs).
  destruct (compose_composite (with_children sp dp (ticked t)) df source
              (frames w) Hc) as (c & h' & E & Hnew & Hcomp & Hold).
  rewrite E. simpl. exists c, (with_frames h' w2).
  split; [reflexivity|]. split; [exact Hnew|]. split; [exact Hcomp|exact Hold].
Qed.

(** The progress that call number [k] computes is that of [k + 1]. *)
Lemma progress_ticked t sp dp k :
  current_frame_ t = k -> 0 <= k < duration (info_ t) ->
  representable (info_ t) ->
  progress (with_children sp dp (ticked t))
  = (to_double (k + 1) / to_double (duration (info_ t)))%Q
  /\ progress_volume (with_children sp dp (ticked t))
     = 256 * (k + 1) / duration (info_ t).
Proof.
  intros Hk Hr Hrep. unfold representable in Hrep.
  unfold progress, progress_volume. simpl.
  rewrite Hk, to_ushort_small by lia.
  split; [reflexivity|]. apply double_to_int_quotient; lia.
Qed.

End Blend.

(** C1, as amended.  Let [t0] be a mix of representable duration D of which
    no frame has been asked: its counter is at zero, as the constructor
    leaves it and as [initialize] and [set_leading_producer] keep it,
    whatever factory and children it holds.  Call number k (counted from 0,
    k < D) in which the two children hand over two distinct frame objects
    sets the alpha of the dest frame to (k+1)/D, scales the samples of the
    dest frame by the volume floor(256*(k+1)/D) and those of the source frame
    by 256 minus that volume. *)
Theorem mix_progress fuel t0 w0 k rs t w df dp w1 sf sp w2 fd fs :
  current_frame_ t0 = 0 ->
  type (info_ t0) = mix -> representable (info_ t0) ->
  0 <= k < duration (info_ t0) ->
  render_frames (Z.to_nat k) fuel t0 w0 = Some (rs, t, w) ->
  render_frame_ref fuel (factory_ t) w (dest_producer_ t)
    = Some (Some df, dp, w1) ->
  render_frame_ref fuel (factory_ t) w1 (source_producer_ t)
    = Some (Some sf, sp, w2) ->
  df <> sf -> frames w !! df = Some fd -> frames w !! sf = Some fs ->
  exists c t' w',
    render_frame fuel t w = Some (Some c, t', w')
    /\ alpha_ <$> frames w' !! df
       = Some (to_double (k + 1) / to_double (duration (info_ t0)))%Q
    /\ audio_data_ <$> frames w' !! df
       = Some (map (scale_sample (256 * (k + 1) / duration (info_ t0)))
                   (audio_data_ fd))
    /\ audio_data_ <$> frames w' !! sf
       = Some (map (scale_sample (256 - 256 * (k + 1) / duration (info_ t0)))
                   (audio_data_ fs)).
Proof.
  intros H0 Hmix Hrep Hk Hrun Hd Hs Hne Hfd Hfs.
  assert (Hk' : 0 <= k <= duration (info_ t0)) by lia.
  destruct (kth_call_state _ _ _ _ _ _ _ H0 Hrep Hk' Hrun) as [Hcf Hi].
  assert (Hc : type (info_ t) <> cut) by (rewrite Hi, Hmix; discriminate).
  assert (Hlt : current_frame_ t < duration (info_ t)) by (rewrite Hcf, Hi; lia).
  assert (Hkt : 0 <= k < duration (info_ t)) by (rewrite Hi; lia).
  assert (Hrt : representable (info_ t)) by (rewrite Hi; exact Hrep).
  destruct (render_frame_blend fuel t w df dp w1 (Some sf) sp w2 Hc Hlt Hd Hs)
    as (c & w' & E & Hnewc & _ & Hold).
  destruct (progress_ticked t sp dp k Hcf Hkt Hrt) as [Hp Hv].
  rewrite Hi in Hp, Hv.
  exists c, (with_children sp dp (ticked t)), w'. split; [exact E|].
  assert (Hcd : df <> c) by congruence.
  assert (Hcs : sf <> c) by congruence.
  rewrite !Hold by assumption.
  split; [|split].
  - rewrite blended_mix_alpha, Hfd, Hp by (simpl; congruence). reflexivity.
  - rewrite blended_dest_audio, Hfd, Hv by (simpl; congruence). reflexivity.
  - rewrite blended_source_audio, Hfs, Hv by (simpl; congruence). reflexivity.
Qed.

Lemma mix_progress_witness :
  exists c t' w',
    render_frame 0 (prepared (mk_transition_info mix 2 from_left)).1
                 (prepared (mk_transition_info mix 2 from_left)).2
    = Some (Some c, t', w')
    /\ alpha_ <$> frames w' !! 0%nat = Some (to_double (0 + 1) / to_double 2)%Q
    /\ audio_data_ <$> frames w' !! 0%nat
       = Some (map (scale_sample (256 * (0 + 1) / 2)) [10000; -10000])
    /\ audio_data_ <$> frames w' !! 1%nat
       = Some (map (scale_sample (256 - 256 * (0 + 1) / 2)) [10000; 7]).
Proof.
  apply (mix_progress 0
           (prepared (mk_transition_info mix 2 from_left)).1
           (prepared (mk_transition_info mix 2 from_left)).2
           0 []
           (prepared (mk_transition_info mix 2 from_left)).1
           (prepared (mk_transition_info mix 2 from_left)).2
           0%nat (Some 0%nat)
           (producer_render_frame 0%nat
              (prepared (mk_transition_info mix 2 from_left)).2).2
           1%nat (Some 1%nat)
           (producer_render_frame 1%nat
              (producer_render_frame 0%nat
                 (prepared (mk_transition_info mix 2 from_left)).2).2).2
           (tone [10000; -10000]) (tone [10000; 7])).
  - reflexivity.
  - reflexivity.
  - unfold representable, USHRT_MAX. simpl. lia.
  - simpl. lia.
  - reflexivity.
  - reflexivity.
  - reflexivity.
  - lia.
  - vm_compute. reflexivity.
  - vm_compute. reflexivity.
Defined.

(** C1 as stated fails on the first call (k = 0) of a mix of two frames: the
    dest frame gets alpha 1/2, not 0/2, and its samples are scaled by 128,
    not by 0. *)
Lemma mix_first_call_is_not_at_zero :
  frame_after alpha_ 0%nat
    (render_frame 0 (started (mk_transition_info mix 2 from_left)) studio)
  = Some (1 # 2)%Q
  /\ ~ (1 # 2 == to_double 0 / to_double 2)%Q
  /\ frame_after audio_data_ 0%nat
       (render_frame 0 (started (mk_transition_info mix 2 from_left)) studio)
     = Some [5000; -5000]
  /\ map (scale_sample (256 * 0 / 2)) [10000; -10000] <> [5000; -5000]
  /\ frame_after audio_data_ 1%nat
       (render_frame 0 (started (mk_transition_info mix 2 from_left)) studio)
     = Some [5000; 3]
  /\ map (scale_sample (256 - 256 * 0 / 2)) [10000; 7] <> [5000; 3].
Proof.
  split; [vm_compute; reflexivity|].
  split; [intros H; vm_compute in H; discriminate H|].
  split; [vm_compute; reflexivity|].
  split; [vm_compute; discriminate|].
  split; [vm_compute; reflexivity|].
  vm_compute; discriminate.
Qed.

(** C6, as amended.  Let [t0] be a slide from the left of representable
    duration D of which no frame has been asked: its counter is at zero, as
    the constructor leaves it and as [initialize] and [set_leading_producer]
    keep it, whatever factory and children it holds.  Call number k (counted
    from 0, k < D) in which the two children hand over two distinct frame
    objects sets the translation of the dest frame to (-1 + (k+1)/D, 0) and
    leaves the translation of the source frame as it was. *)
Theorem slide_from_left_progress fuel t0 w0 k rs t w
    df dp w1 sf sp w2 fd fs :
  current_frame_ t0 = 0 ->
  type (info_ t0) = slide -> direction (info_ t0) = from_left ->
  representable (info_ t0) -> 0 <= k < duration (info_ t0) ->
  render_frames (Z.to_nat k) fuel t0 w0 = Some (rs, t, w) ->
  render_frame_ref fuel (factory_ t) w (dest_producer_ t)
    = Some (Some df, dp, w1) ->
  render_frame_ref fuel (factory_ t) w1 (source_producer_ t)
    = Some (Some sf, sp, w2) ->
  df <> sf -> frames w !! df = Some fd -> frames w !! sf = Some fs ->
  exists c t' w',
    render_frame fuel t w = Some (Some c, t', w')
    /\ (fun f => (x_ f, y_ f)) <$> frames w' !! df
       = Some ((-1 + to_double (k + 1) / to_double (duration (info_ t0)))%Q,
               0%Q)
    /\ (fun f => (x_ f, y_ f)) <$> frames w' !! sf = Some (x_ fs, y_ fs).
Proof.
  intros H0 Hty Hdir Hrep Hk Hrun Hd Hs Hne Hfd Hfs.
  assert (Hk' : 0 <= k <= duration (info_ t0)) by lia.
  destruct (kth_call_state _ _ _ _ _ _ _ H0 Hrep Hk' Hrun) as [Hcf Hi].
  assert (Hc : type (info_ t) <> cut) by (rewrite Hi, Hty; discriminate).
  assert (Hlt : current_frame_ t < duration (info_ t)) by (rewrite Hcf, Hi; lia).
  assert (Hkt : 0 <= k < duration (info_ t)) by (rewrite Hi; lia).
  assert (Hrt : representable (info_ t)) by (rewrite Hi; exact Hrep).
  destruct (render_frame_blend fuel t w df dp w1 (Some sf) sp w2 Hc Hlt Hd Hs)
    as (c & w' & E & Hnewc & _ & Hold).
  destruct (progress_ticked t sp dp k Hcf Hkt Hrt) as [Hp _].
  rewrite Hi in Hp.
  assert (Hty' : type (info_ (with_children sp dp (ticked t))) = slide)
    by (simpl; rewrite Hi; exact Hty).
  assert (Hdir' : direction (info_ (with_children sp dp (ticked t)))
                  = from_left) by (simpl; rewrite Hi; exact Hdir).
  exists c, (with_children sp dp (ticked t)), w'. split; [exact E|].
  assert (Hcd : df <> c) by congruence.
  assert (Hcs : sf <> c) by congruence.
  rewrite !Hold by assumption.
  split.
  - rewrite blended_slide_left_dest, Hfd, Hp by (simpl; congruence).
    reflexivity.
  - assert (Hsd : sf <> df) by congruence.
    pose proof (blended_slide_source (with_children sp dp (ticked t)) df sf
                  (frames w) Hsd Hty') as Hsrc.
    rewrite Hfs in Hsrc. simpl in Hsrc.
    destruct (blended _ df (Some sf) (frames w) !! sf) as [f|];
      [|discriminate]. simpl in *. congruence.
Qed.

Lemma slide_from_left_progress_witness :
  exists c t' w',
    render_frame 0 (prepared (mk_transition_info slide 2 from_left)).1
                 (prepared (mk_transition_info slide 2 from_left)).2
    = Some (Some c, t', w')
    /\ (fun f => (x_ f, y_ f)) <$> frames w' !! 0%nat
       = Some ((-1 + to_double (0 + 1) / to_double 2)%Q, 0%Q)
    /\ (fun f => (x_ f, y_ f)) <$> frames w' !! 1%nat = Some (0%Q, 0%Q).
Proof.
  apply (slide_from_left_progress 0
           (prepared (mk_transition_info slide 2 from_left)).1
           (prepared (mk_transition_info slide 2 from_left)).2
           0 []
           (prepared (mk_transition_info slide 2 from_left)).1
           (prepared (mk_transition_info slide 2 from_left)).2
           0%nat (Some 0%nat)
           (producer_render_frame 0%nat
              (prepared (mk_transition_info slide 2 from_left)).2).2
           1%nat (Some 1%nat)
           (producer_render_frame 1%nat
              (producer_render_frame 0%nat
                 (prepared (mk_transition_info slide 2 from_left)).2).2).2
           (tone [10000; -10000]) (tone [10000; 7])).
  - reflexivity.
  - reflexivity.
  - reflexivity.
  - unfold representable, USHRT_MAX. simpl. lia.
  - simpl. lia.
  - reflexivity.
  - reflexivity.
  - reflexivity.
  - lia.
  - vm_compute. reflexivity.
  - vm_compute. reflexivity.
Defined.

(** C6 as stated fails on the first call (k = 0) of a slide of two frames:
    the dest frame is moved to x = -1/2, not to x = -1 + 0/2. *)
Lemma slide_first_call_is_not_at_zero :
  frame_after x_ 0%nat
    (render_frame 0 (started (mk_transition_info slide 2 from_left)) studio)
  = Some (-1 # 2)%Q
  /\ ~ (-1 # 2 == -1 + to_double 0 / to_double 2)%Q.
Proof.
  split; [vm_compute; reflexivity|].
  intros H; vm_compute in H; discriminate H.
Qed.

(** ** Cut *)

Lemma with_frames_same w h : frames w = h -> with_frames h w = w.
Proof. intros <-. destruct w; reflexivity. Qed.

(** C5, as amended.  Let [t0] be a cut of representable duration D of which
    no frame has been asked: its counter is at zero, as the constructor
    leaves it and as [initialize] and [set_leading_producer] keep it,
    whatever factory and children it holds.  Every call number k < D
    (counted from 0) returns the very pointer that rendering the source
    yielded, allocates nothing and changes no frame (the dest frame is
    rendered and dropped, no sample is scaled); it returns absent when there
    is no source.  Call number D returns the exhausted sentinel.  So a cut
    emits one frame per call for D calls, exactly one only when D = 1. *)
Theorem cut_returns_source_frame fuel t0 w0 k rs t w
    dest dp w1 source sp w2 rsD tD wD :
  current_frame_ t0 = 0 ->
  type (info_ t0) = cut -> representable (info_ t0) ->
  0 <= k < duration (info_ t0) ->
  render_frames (Z.to_nat k) fuel t0 w0 = Some (rs, t, w) ->
  render_frame_ref fuel (factory_ t) w (dest_producer_ t)
    = Some (dest, dp, w1) ->
  render_frame_ref fuel (factory_ t) w1 (source_producer_ t)
    = Some (source, sp, w2) ->
  render_frames (Z.to_nat (duration (info_ t0))) fuel t0 w0
    = Some (rsD, tD, wD) ->
  render_frame fuel t w = Some (source, with_children sp dp (ticked t), w2)
  /\ frames w2 = frames w
  /\ match source_producer_ t with
     | None => source = None
     | Some _ => True
     end
  /\ render_frame fuel tD wD = Some (None, ticked tD, wD).
Proof.
  intros H0 Hty Hrep Hk Hrun Hd Hs HrunD.
  assert (Hk' : 0 <= k <= duration (info_ t0)) by lia.
  destruct (kth_call_state _ _ _ _ _ _ _ H0 Hrep Hk' Hrun) as [Hcf Hi].
  assert (HD : 0 <= duration (info_ t0) <= duration (info_ t0)) by lia.
  destruct (kth_call_state _ _ _ _ _ _ _ H0 Hrep HD HrunD) as [HcfD HiD].
  assert (Hlt : current_frame_ t < duration (info_ t))
    by (rewrite Hcf, Hi; lia).
  assert (Hf : frames w2 = frames w).
  { rewrite (render_frame_ref_frames _ _ _ _ _ _ _ Hs).
    apply (render_frame_ref_frames _ _ _ _ _ _ _ Hd). }
  rewrite (render_frame_running fuel t w _ _ _ _ _ _ Hlt Hd Hs).
  rewrite compose_cut by (simpl; rewrite Hi; exact Hty). simpl.
  rewrite (with_frames_same w2 (frames w) Hf).
  split; [reflexivity|]. split; [exact Hf|]. split.
  - destruct (source_producer_ t); [exact I|].
    rewrite render_frame_ref_null in Hs. congruence.
  - apply render_frame_exhausted. rewrite HcfD, HiD. lia.
Qed.

Lemma cut_returns_source_frame_witness :
  render_frame 0 (prepared (mk_transition_info cut 1 from_left)).1
               (prepared (mk_transition_info cut 1 from_left)).2
  = Some (Some 1%nat,
          with_children (Some 1%nat) (Some 0%nat)
            (ticked (prepared (mk_transition_info cut 1 from_left)).1),
          (producer_render_frame 1%nat
             (producer_render_frame 0%nat
                (prepared (mk_transition_info cut 1 from_left)).2).2).2)
  /\ frames (producer_render_frame 1%nat
               (producer_render_frame 0%nat
                  (prepared (mk_transition_info cut 1 from_left)).2).2).2
     = frames (prepared (mk_transition_info cut 1 from_left)).2
  /\ True
  /\ render_frame 0
       (ticked (prepared (mk_transition_info cut 1 from_left)).1)
       (producer_render_frame 1%nat
          (producer_render_frame 0%nat
             (prepared (mk_transition_info cut 1 from_left)).2).2).2
     = Some (None,
             ticked (ticked (prepared (mk_transition_info cut 1 from_left)).1),
             (producer_render_frame 1%nat
                (producer_render_frame 0%nat
                   (prepared (mk_transition_info cut 1 from_left)).2).2).2).
Proof.
  apply (cut_returns_source_frame 0
           (prepared (mk_transition_info cut 1 from_left)).1
           (prepared (mk_transition_info cut 1 from_left)).2
           0 []
           (prepared (mk_transition_info cut 1 from_left)).1
           (prepared (mk_transition_info cut 1 from_left)).2
           (Some 0%nat) (Some 0%nat)
           (producer_render_frame 0%nat
              (prepared (mk_transition_info cut 1 from_left)).2).2
           (Some 1%nat) (Some 1%nat)
           (producer_render_frame 1%nat
              (producer_render_frame 0%nat
                 (prepared (mk_transition_info cut 1 from_left)).2).2).2
           [Some 1%nat]
           (ticked (prepared (mk_transition_info cut 1 from_left)).1)
           (producer_render_frame 1%nat
              (producer_render_frame 0%nat
                 (prepared (mk_transition_info cut 1 from_left)).2).2).2).
  - reflexivity.
  - reflexivity.
  - unfold representable, USHRT_MAX. simpl. lia.
  - simpl. lia.
  - reflexivity.
  - reflexivity.
  - reflexivity.
  - reflexivity.
Defined.

(** C5 as stated fails for a cut of duration 2: two frames are emitted before
    the sentinel, both the frame of the source. *)
Lemma cut_of_two_frames_emits_two :
  results (render_frames 3 0 (started (mk_transition_info cut 2 from_left)) studio)
  = Some [Some 1%nat; Some 1%nat; None]
  /\ frames_emitted [Some 1%nat; Some 1%nat; None] = 2%nat.
Proof. split; vm_compute; reflexivity. Qed.

(** ** Composite order and in-place updates *)

(** C9.  In a call before exhaustion of a transition other than [cut]: with
    no dest frame the call returns absent; with a dest frame and no source
    frame the result is a composite that holds the dest frame only; with both
    it is a composite that holds the source frame first and the dest frame
    second. *)
Theorem composite_order fuel t w dest dp w1 source sp w2 :
  type (info_ t) <> cut ->
  current_frame_ t < duration (info_ t) ->
  render_frame_ref fuel (factory_ t) w (dest_producer_ t)
    = Some (dest, dp, w1) ->
  render_frame_ref fuel (factory_ t) w1 (source_producer_ t)
    = Some (source, sp, w2) ->
  match dest, source with
  | None, _ =>
      render_frame fuel t w = Some (None, with_children sp dp (ticked t), w2)
  | Some df, None =>
      exists c w',
        render_frame fuel t w = Some (Some c, with_children sp dp (ticked t), w')
        /\ frames w !! c = None
        /\ frames_ <$> frames w' !! c = Some [df]
  | Some df, Some sf =>
      exists c w',
        render_frame fuel t w = Some (Some c, with_children sp dp (ticked t), w')
        /\ frames w !! c = None
        /\ frames_ <$> frames w' !! c = Some [sf; df]
  end.
Proof.
  intros Hc Hlt Hd Hs. destruct dest as [df|].
  - destruct (render_frame_blend fuel t w df dp w1 source sp w2 Hc Hlt Hd Hs)
      as (c & w' & E & Hnew & Hcomp & _).
    destruct source as [sf|]; exists c, w';
      (split; [exact E|]; split; [exact Hnew|]; rewrite Hcomp; reflexivity).
  - assert (Hf : frames w2 = frames w).
    { rewrite (render_frame_ref_frames _ _ _ _ _ _ _ Hs).
      apply (render_frame_ref_frames _ _ _ _ _ _ _ Hd). }
    rewrite (render_frame_running fuel t w _ _ _ _ _ _ Hlt Hd Hs).
    rewrite compose_no_dest by exact Hc. simpl.
    rewrite (with_frames_same w2 (frames w) Hf). reflexivity.
Qed.

Lemma composite_order_witness :
  exists c w',
    render_frame 0 (started (mk_transition_info wipe 2 from_right)) studio
    = Some (Some c,
            with_children (Some 1%nat) (Some 0%nat)
              (ticked (started (mk_transition_info wipe 2 from_right))), w')
    /\ frames studio !! c = None
    /\ frames_ <$> frames w' !! c = Some [1%nat; 0%nat].
Proof.
  apply (composite_order 0 (started (mk_transition_info wipe 2 from_right))
           studio (Some 0%nat) (Some 0%nat)
           (producer_render_frame 0%nat studio).2 (Some 1%nat) (Some 1%nat)
           (producer_render_frame 1%nat (producer_render_frame 0%nat studio).2).2).
  - simpl. discriminate.
  - simpl. lia.
  - reflexivity.
  - reflexivity.
Defined.




(** What a call before exhaustion of a transition other than [cut] returns,
    by the frames at hand. *)
Lemma render_frame_layers fuel t w dest dp w1 source sp w2 :
  type (info_ t) <> cut ->
  current_frame_ t < duration (info_ t) ->
  render_frame_ref fuel (factory_ t) w (dest_producer_ t)
    = Some (dest, dp, w1) ->
  render_frame_ref fuel (factory_ t) w1 (source_producer_ t)
    = Some (source, sp, w2) ->
  match dest, source with
  | None, _ =>
      render_frame fuel t w = Some (None, with_children sp dp (ticked t), w2)
  | Some df, None =>
      exists c w',
        render_frame fuel t w = Some (Some c, with_children sp dp (ticked t), w')
        /\ frames w !! c = None
        /\ frames_ <$> frames w' !! c = Some [df]
  | Some df, Some sf =>
      exists c w',
        render_frame fuel t w = Some (Some c, with_children sp dp (ticked t), w')
        /\ frames w !! c = None
        /\ frames_ <$> frames w' !! c = Some [sf; df]
  end.
Proof.
  intros Hc Hlt Hd Hs. destruct dest as [df|].
  - destruct (render_frame_blend fuel t w df dp w1 source sp w2 Hc Hlt Hd Hs)
      as (c & w' & E & Hnew & Hcomp & _).
    destruct source as [sf|]; exists c, w';
      (split; [exact E|]; split; [exact Hnew|]; rewrite Hcomp; reflexivity).
  - assert (Hf : frames w2 = frames w).
    { rewrite (render_frame_ref_frames _ _ _ _ _ _ _ Hs).
      apply (render_frame_ref_frames _ _ _ _ _ _ _ Hd). }
    rewrite (render_frame_running fuel t w _ _ _ _ _ _ Hlt Hd Hs).
    rewrite compose_no_dest by exact Hc. simpl.
    rewrite (with_frames_same w2 (frames w) Hf). reflexivity.
Qed.

(** ** The failure barrier *)

(** C8, as amended.  In a call before exhaustion of a transition of any
    type, let one child be gone or raise in its [render_frame].  Nothing
    escapes the call; that side yields no frame and its pointer is null
    afterwards, so that the same holds in the next call.  What the call
    returns is decided by the other child.  When the child is the source, a
    transition other than [cut] returns a composite of the dest frame alone
    (absent if the dest has no frame), and a [cut], which hands on the frame
    of the source, returns absent.  When the child is the dest, a transition
    other than [cut] returns absent, whatever the source has rendered, and a
    [cut] returns the frame of the source as before. *)
Theorem failing_child_is_removed fuel t w failed dest dp w1 source sp w2 :
  current_frame_ t < duration (info_ t) ->
  render_frame_ref fuel (factory_ t) w (dest_producer_ t)
    = Some (dest, dp, w1) ->
  render_frame_ref fuel (factory_ t) w1 (source_producer_ t)
    = Some (source, sp, w2) ->
  match failed with
  | dest_child => absent_or_raising w (dest_producer_ t)
  | source_child => absent_or_raising w1 (source_producer_ t)
  end ->
  exists r t' w',
    render_frame fuel t w = Some (r, t', w')
    /\ match failed with
       | dest_child =>
           dest = None /\ dest_producer_ t' = None
           /\ source_producer_ t' = sp
           /\ r = match type (info_ t) with
                  | cut => source
                  | _ => None
                  end
           /\ w' = w2
       | source_child =>
           source = None /\ source_producer_ t' = None
           /\ dest_producer_ t' = dp
           /\ match type (info_ t), dest with
              | cut, _ => r = None /\ w' = w2
              | _, Some df =>
                  exists c, r = Some c /\ frames w !! c = None
                            /\ frames_ <$> frames w' !! c = Some [df]
              | _, None => r = None
              end
       end.
Proof.
  intros Hlt Hd Hs Hfail.
  destruct (decide (type (info_ t) = cut)) as [Hc|Hc].
  - assert (Hf : frames w2 = frames w).
    { rewrite (render_frame_ref_frames _ _ _ _ _ _ _ Hs).
      apply (render_frame_ref_frames _ _ _ _ _ _ _ Hd). }
    pose proof (render_frame_running fuel t w _ _ _ _ _ _ Hlt Hd Hs) as Hrun.
    rewrite compose_cut in Hrun by exact Hc. simpl in Hrun.
    rewrite (with_frames_same w2 (frames w) Hf) in Hrun.
    rewrite Hc. destruct failed.
    + destruct (render_frame_ref_barrier (factory_ t) fuel w _ Hfail)
        as (w1' & E & _).
      rewrite E in Hd. injection Hd as <- <- <-.
      exists source, (with_children sp None (ticked t)), w2.
      split; [exact Hrun|]. repeat split; reflexivity.
    + destruct (render_frame_ref_barrier (factory_ t) fuel w1 _ Hfail)
        as (w2' & E & _).
      rewrite E in Hs. injection Hs as <- <- <-.
      exists None, (with_children None dp (ticked t)), w2'.
      split; [exact Hrun|]. repeat split; reflexivity.
  - pose proof (render_frame_layers fuel t w dest dp w1 source sp w2
                  Hc Hlt Hd Hs) as Horder.
    destruct failed.
    + destruct (render_frame_ref_barrier (factory_ t) fuel w _ Hfail)
        as (w1' & E & _).
      rewrite E in Hd. injection Hd as <- <- <-.
      exists None, (with_children sp None (ticked t)), w2.
      split; [exact Horder|].
      destruct (type (info_ t)) eqn:Hty; [congruence|..];
        repeat split; reflexivity.
    + destruct (render_frame_ref_barrier (factory_ t) fuel w1 _ Hfail)
        as (w2' & E & _).
      rewrite E in Hs. injection Hs as <- <- <-.
      destruct dest as [df|].
      * destruct Horder as (c & w' & E' & Hnew & Hcomp).
        exists (Some c), (with_children None dp (ticked t)), w'.
        split; [exact E'|].
        split; [reflexivity|]. split; [reflexivity|]. split; [reflexivity|].
        destruct (type (info_ t)) eqn:Hty; [congruence|..];
          (exists c; repeat split; assumption).
      * exists None, (with_children None dp (ticked t)), w2'.
        split; [exact Horder|].
        split; [reflexivity|]. split; [reflexivity|]. split; [reflexivity|].
        destruct (type (info_ t)) eqn:Hty; [congruence|..]; reflexivity.
Qed.

Lemma failing_child_is_removed_witness :
  exists r t' w',
    render_frame 0 (started (mk_transition_info mix 3 from_left))
                 studio_with_broken_source
    = Some (r, t', w')
    /\ (None : gpu_frame_ptr) = None /\ source_producer_ t' = None
    /\ dest_producer_ t' = Some 0%nat
    /\ exists c, r = Some c /\ frames studio_with_broken_source !! c = None
                 /\ frames_ <$> frames w' !! c = Some [0%nat].
Proof.
  apply (failing_child_is_removed 0
           (started (mk_transition_info mix 3 from_left))
           studio_with_broken_source source_child
           (Some 0%nat) (Some 0%nat)
           (producer_render_frame 0%nat studio_with_broken_source).2
           None None
           (with_log [current_exception;
                      warning "Removed renderer from transition."]
              (producer_render_frame 1%nat
                 (producer_render_frame 0%nat studio_with_broken_source).2).2)).
  - simpl. lia.
  - reflexivity.
  - reflexivity.
  - reflexivity.
Defined.

(** C8 as stated fails when the child that raises is the dest: the source
    goes on being rendered (three calls) and handing over frames, yet no call
    of the transition returns a composite of it. *)
Lemma broken_dest_leaves_nothing_composited :
  results (render_frames 3 0 (started (mk_transition_info mix 3 from_left))
             studio_with_broken_dest)
  = Some [None; None; None]
  /\ frames_emitted [None; None; None] = 0%nat
  /\ (fun x => calls (producers x.2 1%nat))
       <$> render_frames 3 0 (started (mk_transition_info mix 3 from_left))
             studio_with_broken_dest
     = Some 3%nat
  /\ (fun x => (dest_producer_ x.1.2, source_producer_ x.1.2))
       <$> render_frames 3 0 (started (mk_transition_info mix 3 from_left))
             studio_with_broken_dest
     = Some (None, Some 1%nat).
Proof. repeat split; vm_compute; reflexivity. Qed.

(** The barrier in a [cut], evaluated: with a dest that raises the cut goes
    on returning the frame of the source, with a source that raises it
    returns absent; either way the child that raised is gone after the first
    call and the other is kept. *)
Example barrier_in_a_cut :
  (fun x => (x.1.1, dest_producer_ x.1.2, source_producer_ x.1.2))
    <$> render_frames 3 0 (started (mk_transition_info cut 3 from_left))
          studio_with_broken_dest
  = Some ([Some 1%nat; Some 1%nat; Some 1%nat], None, Some 1%nat)
  /\ (fun x => (x.1.1, dest_producer_ x.1.2, source_producer_ x.1.2))
       <$> render_frames 3 0 (started (mk_transition_info cut 3 from_left))
             studio_with_broken_source
     = Some ([None; None; None], Some 0%nat, None).
Proof. split; vm_compute; reflexivity. Qed.

(** ** Auto-advance of a child *)

Lemma last_cons {A} (rest : list A) : forall q p,
  List.last (q :: rest) p = List.last rest q.
Proof.
  induction rest as [|a rest IH]; intros q p; [reflexivity|].
  change (List.last (q :: a :: rest) p) with (List.last (a :: rest) p).
  rewrite (IH a p), (IH a q). reflexivity.
Qed.

Lemma last_elem (rest : list nat) : forall q, List.last rest q ∈ q :: rest.
Proof.
  induction rest as [|a rest IH]; intros q; [left|].
  rewrite (last_cons rest a q). right. apply IH.
Qed.

Section Advance.

Variable fac : frame_factory_ptr.

Lemma advanced_schedule p q w x :
  x <> p ->
  next_outcome (advanced fac p q w) x = next_outcome w x
  /\ following (producers (advanced fac p q w) x) = following (producers w x).
Proof. intros Hx. split; producer_fields. Qed.

Lemma advanced_links p q w :
  leading (producers (advanced fac p q w) q) = Some p
  /\ factory (producers (advanced fac p q w) q) = fac.
Proof. split; producer_fields. Qed.

Lemma advanced_other p q w x :
  x <> q ->
  leading (producers (advanced fac p q w) x) = leading (producers w x)
  /\ factory (producers (advanced fac p q w) x) = factory (producers w x).
Proof. intros Hx. split; producer_fields. Qed.

Lemma render_other p w x :
  leading (producers (producer_render_frame p w).2 x) = leading (producers w x)
  /\ factory (producers (producer_render_frame p w).2 x)
     = factory (producers w x).
Proof. split; producer_fields. Qed.

Lemma exhausted_chain_ext rest : forall p w w',
  (forall x, x ∈ p :: rest ->
     next_outcome w' x = next_outcome w x
     /\ following (producers w' x) = following (producers w x)) ->
  exhausted_chain w p rest -> exhausted_chain w' p rest.
Proof.
  induction rest as [|q rest IH]; intros p w w' Hsame; simpl; [trivial|].
  intros (Hn & Hf & Hrest).
  destruct (Hsame p ltac:(left)) as [-> ->].
  split; [exact Hn|]. split; [exact Hf|].
  apply (IH q w w'); [|exact Hrest].
  intros x Hx. apply Hsame. right. exact Hx.
Qed.

Lemma linked_ext rest : forall p w w',
  (forall x, x ∈ rest ->
     leading (producers w' x) = leading (producers w x)
     /\ factory (producers w' x) = factory (producers w x)) ->
  linked w fac p rest -> linked w' fac p rest.
Proof.
  induction rest as [|q rest IH]; intros p w w' Hsame; simpl; [trivial|].
  intros (Hl & Hf & Hrest).
  destruct (Hsame q ltac:(left)) as [-> ->].
  split; [exact Hl|]. split; [exact Hf|].
  apply (IH q w w'); [|exact Hrest].
  intros x Hx. apply Hsame. right. exact Hx.
Qed.

(** One call on the head of a chain of exhausted producers walks the whole
    chain: the length of the chain is the depth of the recursion, and it is
    not bounded by anything else. *)
Lemma render_frame_ref_chain rest : forall p w fuel f,
  NoDup (p :: rest) ->
  exhausted_chain w p rest ->
  next_outcome w (List.last rest p) = returns (Some f) ->
  (length rest <= fuel)%nat ->
  exists w',
    render_frame_ref fuel fac w (Some p)
    = Some (Some f, Some (List.last rest p), w')
    /\ linked w' fac p rest
    /\ forall x, x ∉ rest ->
         leading (producers w' x) = leading (producers w x)
         /\ factory (producers w' x) = factory (producers w x).
Proof.
  induction rest as [|q rest IH]; intros p w fuel f Hnd Hch Hlast Hfuel.
  - simpl in Hlast. rewrite (render_frame_ref_returns fac fuel w p f Hlast).
    eexists. split; [reflexivity|]. split; [exact I|].
    intros x _. apply render_other.
  - destruct Hch as (Hn & Hf & Hrest).
    destruct fuel as [|fuel]; [simpl in Hfuel; lia|].
    rewrite (render_frame_ref_advance fac fuel w p q Hn Hf).
    fold (advanced fac p q w).
    apply NoDup_cons in Hnd. destruct Hnd as [Hp Hnd].
    assert (Hsame : forall x, x ∈ q :: rest ->
              next_outcome (advanced fac p q w) x = next_outcome w x
              /\ following (producers (advanced fac p q w) x)
                 = following (producers w x)).
    { intros x Hx. apply advanced_schedule. intros ->. contradiction. }
    assert (Hlast' : next_outcome (advanced fac p q w) (List.last rest q)
                     = returns (Some f)).
    { rewrite last_cons in Hlast.
      destruct (Hsame _ (last_elem rest q)) as [-> _]. exact Hlast. }
    destruct (IH q (advanced fac p q w) fuel f Hnd
                (exhausted_chain_ext rest q w _ Hsame Hrest) Hlast'
                ltac:(simpl in Hfuel; lia))
      as (w' & E & Hlink & Hkeep).
    exists w'. split; [rewrite E, last_cons; reflexivity|].
    apply NoDup_cons in Hnd. destruct Hnd as [Hq Hnd].
    split.
    + destruct (Hkeep q Hq) as [Hl1 Hl2].
      destruct (advanced_links p q w) as [Hl3 Hl4].
      simpl. split; [congruence|]. split; [congruence|exact Hlink].
    + intros x Hx.
      assert (Hxq : x <> q) by (intros ->; apply Hx; left).
      assert (Hxr : x ∉ rest) by (intros Hin; apply Hx; right; exact Hin).
      destruct (Hkeep x Hxr) as [-> ->].
      apply advanced_other. exact Hxq.
Qed.

End Advance.

(** A child that is exhausted for good and is its own following producer
    keeps the recursion going for ever: no depth is enough. *)
Lemma self_following_never_returns fac p fuel : forall w,
  (forall n, behaviour (producers w p) n = returns None) ->
  following (producers w p) = Some p ->
  render_frame_ref fuel fac w (Some p) = None.
Proof.
  induction fuel as [|fuel IH]; intros w Hb Hf.
  - simpl. rewrite Hb. unfold producer_get_following_producer. simpl.
    rewrite fn_lookup_insert. simpl. rewrite Hf. reflexivity.
  - rewrite (render_frame_ref_advance fac fuel w p p (Hb _) Hf).
    apply IH.
    + intros n. rewrite <- (Hb n). producer_fields.
    + rewrite <- Hf. producer_fields.
Qed.



(** The same walk on the source side: the dest is rendered first, the chain
    of the source is then followed in the world the dest left behind. *)
Lemma exhausted_source_is_advanced fuel t w dest dp w1 p rest f :
  current_frame_ t < duration (info_ t) ->
  render_frame_ref fuel (factory_ t) w (dest_producer_ t)
    = Some (dest, dp, w1) ->
  source_producer_ t = Some p ->
  NoDup (p :: rest) ->
  exhausted_chain w1 p rest ->
  next_outcome w1 (List.last rest p) = returns (Some f) ->
  (length rest <= fuel)%nat ->
  exists r t' w',
    render_frame fuel t w = Some (r, t', w')
    /\ source_producer_ t' = Some (List.last rest p)
    /\ linked w' (factory_ t) p rest.
Proof.
  intros Hlt Hd Hs Hnd Hch Hlast Hfuel.
  destruct (render_frame_ref_chain (factory_ t) rest p w1 fuel f
              Hnd Hch Hlast Hfuel) as (w2 & E & Hlink & _).
  rewrite <- Hs in E.
  rewrite (render_frame_running fuel t w _ _ _ _ _ _ Hlt Hd E).
  eexists _, _, _. split; [reflexivity|]. split; [reflexivity|].
  apply (linked_ext (factory_ t) rest p w2); [|exact Hlink].
  intros x _. split; reflexivity.
Qed.

(** * Further properties of the transition producer *)

(** ** The geometry of [compose] by transition type *)

Section Geometry.

Variable t : implementation.

Lemma blended_geometry_dest d s h :
  s <> d -> type (info_ t) <> cut ->
  (fun f => (x_ f, y_ f)) <$> blended t d (Some s) h !! d
  = (fun f =>
       match type (info_ t), direction (info_ t) with
       | mix, _ => (x_ f, y_ f)
       | _, from_left => ((-1 + progress t)%Q, 0%Q)
       | _, from_right => ((1 - progress t)%Q, 0%Q)
       end) <$> h !! d.
Proof. intros Hs Hc. heap_lookup. Qed.

Lemma blended_geometry_source d s h :
  s <> d -> type (info_ t) <> cut ->
  (fun f => (x_ f, y_ f)) <$> blended t d (Some s) h !! s
  = (fun f =>
       match type (info_ t), direction (info_ t) with
       | push, from_left => ((0 + progress t)%Q, 0%Q)
       | push, from_right => ((0 - progress t)%Q, 0%Q)
       | _, _ => (x_ f, y_ f)
       end) <$> h !! s.
Proof. intros Hs Hc. heap_lookup. Qed.

Lemma blended_texcoords_dest d s h :
  s <> d -> type (info_ t) <> cut ->
  texcoords_ <$> blended t d (Some s) h !! d
  = (fun f =>
       match type (info_ t), direction (info_ t) with
       | wipe, from_left =>
           mk_rectangle (-1 + progress t) 1 (progress t) 0
       | wipe, from_right =>
           mk_rectangle (1 - progress t) 1 (2 - progress t) 0
       | _, _ => texcoords_ f
       end) <$> h !! d.
Proof. intros Hs Hc. heap_lookup. Qed.

Lemma blended_texcoords_source d s h :
  s <> d -> type (info_ t) <> cut ->
  texcoords_ <$> blended t d (Some s) h !! s = texcoords_ <$> h !! s.
Proof. intros Hs Hc. heap_lookup. Qed.

Lemma blended_alpha_dest d s h :
  s <> d -> type (info_ t) <> cut ->
  alpha_ <$> blended t d (Some s) h !! d
  = (fun f => match type (info_ t) with
              | mix => progress t
              | _ => alpha_ f
              end) <$> h !! d.
Proof. intros Hs Hc. heap_lookup. Qed.

Lemma blended_alpha_source d s h :
  s <> d -> type (info_ t) <> cut ->
  alpha_ <$> blended t d (Some s) h !! s = alpha_ <$> h !! s.
Proof. intros Hs Hc. heap_lookup. Qed.

End Geometry.

(** ** Scaling of 16-bit samples *)

Lemma scale_sample_full s : in_short_range s -> scale_sample 256 s = s.
Proof.
  intros Hs. unfold in_short_range in Hs.
  destruct (scale_sample_no_wrap 256 s ltac:(lia) Hs) as [-> _].
  apply Z.div_mul. lia.
Qed.

Lemma scale_sample_zero s : scale_sample 0 s = 0.
Proof. unfold scale_sample. rewrite Z.mul_0_r. reflexivity. Qed.

Lemma scaled_in_range v l :
  0 <= v <= 256 -> Forall in_short_range l ->
  map (scale_sample v) l = map (fun s => s * v / 256) l
  /\ Forall in_short_range (map (fun s => s * v / 256) l).
Proof.
  intros Hv. induction 1 as [|s l Hs Hl [IH1 IH2]]; [split; constructor|].
  destruct (scale_sample_no_wrap v s Hv Hs) as [E R]. simpl. split.
  - rewrite E, IH1. reflexivity.
  - constructor; [rewrite <- E; exact R | exact IH2].
Qed.

(** ** A call that blends two distinct frames *)

Section BlendingCall.

Variables (fuel : nat) (t : implementation) (w : world).
Variables (df : nat) (dp : frame_producer_ptr) (w1 : world).
Variables (sf : nat) (sp : frame_producer_ptr) (w2 : world).
Variables (fd fs : gpu_frame).

Hypothesis Hrunning : 0 <= current_frame_ t < duration (info_ t).
Hypothesis Hrep : representable (info_ t).
Hypothesis Hdest :
  render_frame_ref fuel (factory_ t) w (dest_producer_ t)
  = Some (Some df, dp, w1).
Hypothesis Hsource :
  render_frame_ref fuel (factory_ t) w1 (source_producer_ t)
  = Some (Some sf, sp, w2).
Hypothesis Hdistinct : df <> sf.
Hypothesis Hfd : frames w !! df = Some fd.
Hypothesis Hfs : frames w !! sf = Some fs.

Lemma blending_call :
  type (info_ t) <> cut ->
  exists c w',
    render_frame fuel t w = Some (Some c, with_children sp dp (ticked t), w')
    /\ (forall (A : Type) (proj : gpu_frame -> A),
          proj <$> frames w' !! df
          = proj <$> blended (with_children sp dp (ticked t)) df (Some sf)
                       (frames w) !! df)
    /\ (forall (A : Type) (proj : gpu_frame -> A),
          proj <$> frames w' !! sf
          = proj <$> blended (with_children sp dp (ticked t)) df (Some sf)
                       (frames w) !! sf)
    /\ progress (with_children sp dp (ticked t)) = next_progress t
    /\ progress_volume (with_children sp dp (ticked t)) = next_volume t.
Proof.
  intros Hc.
  destruct (render_frame_blend fuel t w df dp w1 (Some sf) sp w2 Hc
              (proj2 Hrunning) Hdest Hsource) as (c & w' & E & Hnew & _ & Hold).
  destruct (progress_ticked t sp dp (current_frame_ t) eq_refl Hrunning Hrep)
    as [Hp Hv].
  exists c, w'. split; [exact E|].
  assert (Hcd : df <> c) by congruence.
  assert (Hcs : sf <> c) by congruence.
  split; [intros A proj; rewrite Hold by exact Hcd; reflexivity|].
  split; [intros A proj; rewrite Hold by exact Hcs; reflexivity|].
  split; [exact Hp | exact Hv].
Qed.

(** X1.  A push moves both frames: the dest frame to (-1 + a, 0) from the left
    or (1 - a, 0) from the right, the source frame to (a, 0) or (-a, 0),
    where a is the progress (counter + 1) / duration of the call; alpha and
    texture coordinates of both frames are left alone. *)
Theorem push_geometry :
  type (info_ t) = push ->
  exists c t' w',
    render_frame fuel t w = Some (Some c, t', w')
    /\ translation <$> frames w' !! df
       = Some (match direction (info_ t) with
               | from_left => (-1 + next_progress t)%Q
               | from_right => (1 - next_progress t)%Q
               end, 0%Q)
    /\ translation <$> frames w' !! sf
       = Some (match direction (info_ t) with
               | from_left => (0 + next_progress t)%Q
               | from_right => (0 - next_progress t)%Q
               end, 0%Q)
    /\ alpha_ <$> frames w' !! df = Some (alpha_ fd)
    /\ alpha_ <$> frames w' !! sf = Some (alpha_ fs)
    /\ texcoords_ <$> frames w' !! df = Some (texcoords_ fd)
    /\ texcoords_ <$> frames w' !! sf = Some (texcoords_ fs).
Proof.
  intros Hty.
  assert (Hc : type (info_ t) <> cut) by (rewrite Hty; discriminate).
  destruct (blending_call Hc) as (c & w' & E & Hd & Hs & Hp & _).
  assert (Hty' : type (info_ (with_children sp dp (ticked t))) = push)
    by exact Hty.
  assert (Hc' : type (info_ (with_children sp dp (ticked t))) <> cut)
    by exact Hc.
  exists c, (with_children sp dp (ticked t)), w'. split; [exact E|].
  unfold translation. rewrite !Hd, !Hs.
  rewrite blended_geometry_dest, blended_geometry_source,
    blended_alpha_dest, blended_alpha_source,
    blended_texcoords_dest, blended_texcoords_source by congruence.
  rewrite Hty', Hfd, Hfs, Hp. simpl.
  destruct (direction (info_ t)); repeat split; reflexivity.
Qed.

(** X2.  A wipe moves the dest frame as a slide does and sets its texture
    coordinates to (-1 + a, 1, a, 0) from the left or (1 - a, 1, 2 - a, 0)
    from the right; its alpha, and the whole geometry of the source frame,
    are left alone. *)
Theorem wipe_geometry :
  type (info_ t) = wipe ->
  exists c t' w',
    render_frame fuel t w = Some (Some c, t', w')
    /\ translation <$> frames w' !! df
       = Some (match direction (info_ t) with
               | from_left => (-1 + next_progress t)%Q
               | from_right => (1 - next_progress t)%Q
               end, 0%Q)
    /\ texcoords_ <$> frames w' !! df
       = Some (match direction (info_ t) with
               | from_left =>
                   mk_rectangle (-1 + next_progress t) 1 (next_progress t) 0
               | from_right =>
                   mk_rectangle (1 - next_progress t) 1 (2 - next_progress t) 0
               end)
    /\ alpha_ <$> frames w' !! df = Some (alpha_ fd)
    /\ translation <$> frames w' !! sf = Some (translation fs)
    /\ alpha_ <$> frames w' !! sf = Some (alpha_ fs)
    /\ texcoords_ <$> frames w' !! sf = Some (texcoords_ fs).
Proof.
  intros Hty.
  assert (Hc : type (info_ t) <> cut) by (rewrite Hty; discriminate).
  destruct (blending_call Hc) as (c & w' & E & Hd & Hs & Hp & _).
  assert (Hty' : type (info_ (with_children sp dp (ticked t))) = wipe)
    by exact Hty.
  assert (Hc' : type (info_ (with_children sp dp (ticked t))) <> cut)
    by exact Hc.
  exists c, (with_children sp dp (ticked t)), w'. split; [exact E|].
  unfold translation. rewrite !Hd, !Hs.
  rewrite blended_geometry_dest, blended_geometry_source,
    blended_alpha_dest, blended_alpha_source,
    blended_texcoords_dest, blended_texcoords_source by congruence.
  rewrite Hty', Hfd, Hfs, Hp. simpl.
  destruct (direction (info_ t)); repeat split; reflexivity.
Qed.

(** X3.  A slide moves the dest frame to (-1 + a, 0) from the left or
    (1 - a, 0) from the right and changes nothing else: the alpha and the
    texture coordinates of the dest frame and the whole geometry of the
    source frame are left alone. *)
Theorem slide_geometry :
  type (info_ t) = slide ->
  exists c t' w',
    render_frame fuel t w = Some (Some c, t', w')
    /\ translation <$> frames w' !! df
       = Some (match direction (info_ t) with
               | from_left => (-1 + next_progress t)%Q
               | from_right => (1 - next_progress t)%Q
               end, 0%Q)
    /\ alpha_ <$> frames w' !! df = Some (alpha_ fd)
    /\ texcoords_ <$> frames w' !! df = Some (texcoords_ fd)
    /\ translation <$> frames w' !! sf = Some (translation fs)
    /\ alpha_ <$> frames w' !! sf = Some (alpha_ fs)
    /\ texcoords_ <$> frames w' !! sf = Some (texcoords_ fs).
Proof.
  intros Hty.
  assert (Hc : type (info_ t) <> cut) by (rewrite Hty; discriminate).
  destruct (blending_call Hc) as (c & w' & E & Hd & Hs & Hp & _).
  assert (Hty' : type (info_ (with_children sp dp (ticked t))) = slide)
    by exact Hty.
  assert (Hc' : type (info_ (with_children sp dp (ticked t))) <> cut)
    by exact Hc.
  exists c, (with_children sp dp (ticked t)), w'. split; [exact E|].
  unfold translation. rewrite !Hd, !Hs.
  rewrite blended_geometry_dest, blended_geometry_source,
    blended_alpha_dest, blended_alpha_source,
    blended_texcoords_dest, blended_texcoords_source by congruence.
  rewrite Hty', Hfd, Hfs, Hp. simpl.
  destruct (direction (info_ t)); repeat split; reflexivity.
Qed.

(** X4.  A mix changes the alpha of the dest frame and no other attribute of
    the picture: the translation and the texture coordinates of both frames
    and the alpha of the source frame are left alone. *)
Theorem mix_leaves_geometry :
  type (info_ t) = mix ->
  exists c t' w',
    render_frame fuel t w = Some (Some c, t', w')
    /\ alpha_ <$> frames w' !! df = Some (next_progress t)
    /\ translation <$> frames w' !! df = Some (translation fd)
    /\ texcoords_ <$> frames w' !! df = Some (texcoords_ fd)
    /\ translation <$> frames w' !! sf = Some (translation fs)
    /\ alpha_ <$> frames w' !! sf = Some (alpha_ fs)
    /\ texcoords_ <$> frames w' !! sf = Some (texcoords_ fs).
Proof.
  intros Hty.
  assert (Hc : type (info_ t) <> cut) by (rewrite Hty; discriminate).
  destruct (blending_call Hc) as (c & w' & E & Hd & Hs & Hp & _).
  assert (Hty' : type (info_ (with_children sp dp (ticked t))) = mix)
    by exact Hty.
  assert (Hc' : type (info_ (with_children sp dp (ticked t))) <> cut)
    by exact Hc.
  exists c, (with_children sp dp (ticked t)), w'. split; [exact E|].
  unfold translation. rewrite !Hd, !Hs.
  rewrite blended_geometry_dest, blended_geometry_source,
    blended_alpha_dest, blended_alpha_source,
    blended_texcoords_dest, blended_texcoords_source by congruence.
  rewrite Hty', Hfd, Hfs, Hp. simpl. repeat split; reflexivity.
Qed.

Lemma next_volume_range : 0 <= next_volume t <= 256.
Proof.
  clear - Hrunning Hrep.
  unfold next_volume. unfold representable in Hrep.
  apply quotient_volume_range; lia.
Qed.

(** X5.  With samples that are 16-bit values, the scaling of a blending call
    never wraps: the volume lies in [0, 256], the samples of the dest frame
    become floor(s * v / 256), those of the source frame
    floor(s * (256 - v) / 256), and all of them are 16-bit values again. *)
Theorem samples_stay_in_range :
  type (info_ t) <> cut ->
  Forall in_short_range (audio_data_ fd) ->
  Forall in_short_range (audio_data_ fs) ->
  exists c t' w',
    render_frame fuel t w = Some (Some c, t', w')
    /\ 0 <= next_volume t <= 256
    /\ audio_data_ <$> frames w' !! df
       = Some (map (fun s => s * next_volume t / 256) (audio_data_ fd))
    /\ audio_data_ <$> frames w' !! sf
       = Some (map (fun s => s * (256 - next_volume t) / 256) (audio_data_ fs))
    /\ Forall in_short_range
         (map (fun s => s * next_volume t / 256) (audio_data_ fd))
    /\ Forall in_short_range
         (map (fun s => s * (256 - next_volume t) / 256) (audio_data_ fs)).
Proof.
  intros Hc Hrd Hrs.
  destruct (blending_call Hc) as (c & w' & E & Hd & Hs & _ & Hv).
  pose proof next_volume_range as Hvr.
  assert (Hvr' : 0 <= 256 - next_volume t <= 256) by lia.
  destruct (scaled_in_range _ _ Hvr Hrd) as [Ed Rd].
  destruct (scaled_in_range _ _ Hvr' Hrs) as [Es Rs].
  exists c, (with_children sp dp (ticked t)), w'. split; [exact E|].
  split; [exact Hvr|].
  rewrite Hd, Hs, blended_dest_audio, blended_source_audio by
    (simpl; congruence).
  rewrite Hfd, Hfs, Hv. simpl. rewrite Ed, Es.
  repeat split; assumption.
Qed.

(** X6.  The last call before exhaustion (counter + 1 = duration) completes
    the blend: the progress is 1, the volume 256, the 16-bit samples of the
    dest frame come out as they went in and every sample of the source frame
    is zero. *)
Theorem last_call_completes_blend :
  type (info_ t) <> cut ->
  current_frame_ t + 1 = duration (info_ t) ->
  Forall in_short_range (audio_data_ fd) ->
  exists c t' w',
    render_frame fuel t w = Some (Some c, t', w')
    /\ (next_progress t == 1)%Q
    /\ next_volume t = 256
    /\ audio_data_ <$> frames w' !! df = Some (audio_data_ fd)
    /\ audio_data_ <$> frames w' !! sf
       = Some (map (fun _ => 0) (audio_data_ fs)).
Proof.
  intros Hc Hlast Hrd.
  destruct (blending_call Hc) as (c & w' & E & Hd & Hs & _ & Hv).
  assert (Hvol : next_volume t = 256).
  { unfold next_volume. rewrite Hlast. apply Z.div_mul. lia. }
  exists c, (with_children sp dp (ticked t)), w'. split; [exact E|].
  split.
  { unfold next_progress, to_double. rewrite Hlast.
    apply Qmult_inv_r. intros H0.
    apply (inject_Z_injective (duration (info_ t)) 0) in H0. lia. }
  split; [exact Hvol|].
  rewrite Hd, Hs, blended_dest_audio, blended_source_audio by
    (simpl; congruence).
  rewrite Hfd, Hfs, Hv, Hvol. simpl. split; f_equal.
  - clear - Hrd. induction Hrd as [|s l Hs' Hl IH]; [reflexivity|].
    simpl. rewrite (scale_sample_full s Hs'), IH. reflexivity.
  - apply map_ext. intros s. apply scale_sample_zero.
Qed.

End BlendingCall.

(** ** Progress over the calls *)



(** ** The counter *)

(** X8.  Whatever the children do, [n] calls move the counter by [n] modulo
    2^16 and leave the transition info, the format and the factory as they
    were. *)
Theorem counter_counts_calls fuel n : forall t w rs t' w',
  0 <= current_frame_ t <= USHRT_MAX ->
  render_frames n fuel t w = Some (rs, t', w') ->
  current_frame_ t' = (current_frame_ t + Z.of_nat n) mod 65536
  /\ 0 <= current_frame_ t' <= USHRT_MAX
  /\ info_ t' = info_ t /\ format_desc_ t' = format_desc_ t
  /\ factory_ t' = factory_ t /\ length rs = n.
Proof.
  induction n as [|n IH]; intros t w rs t' w' Hr.
  - simpl. intros [= <- <- <-]. rewrite Z.add_0_r.
    split; [symmetry; apply Z.mod_small; unfold USHRT_MAX in Hr; lia|].
    repeat split; try reflexivity; apply Hr.
  - rewrite render_frames_S.
    destruct (render_frame fuel t w) as [[[r0 t0] w0]|] eqn:E; [|discriminate].
    destruct (render_frames n fuel t0 w0) as [[[rs0 t3] w3]|] eqn:En;
      [|discriminate].
    intros [= <- <- <-].
    assert (H0 : current_frame_ t0 = to_ushort (current_frame_ t + 1)
                 /\ info_ t0 = info_ t /\ format_desc_ t0 = format_desc_ t
                 /\ factory_ t0 = factory_ t).
    { revert E. unfold render_frame. simpl. case_decide.
      - intros [= <- <- <-]. repeat split; reflexivity.
      - destruct (render_frame_ref fuel _ w _) as [[[dest dp] w1]|];
          [|discriminate]. simpl.
        destruct (render_frame_ref fuel _ w1 _) as [[[source sp] w2]|];
          [|discriminate]. simpl.
        destruct (compose _ _ _ _). intros [= <- <- <-].
        repeat split; reflexivity. }
    destruct H0 as (Hc & Hi & Hf & Hfac).
    destruct (IH t0 w0 rs0 t3 w3) as (Hc' & Hr' & Hi' & Hf' & Hfac' & Hl);
      [rewrite Hc; apply to_ushort_range | exact En |].
    split.
    { rewrite Hc', Hc. unfold to_ushort.
      rewrite Z.add_mod_idemp_l by lia. f_equal. lia. }
    split; [exact Hr'|].
    repeat split; try congruence. simpl. congruence.
Qed.

(** X9.  A transition of duration zero never renders its children: every
    call of any run returns the sentinel and leaves the world as it was. *)
Theorem zero_duration_never_renders fuel n : forall t w,
  duration (info_ t) = 0 -> 0 <= current_frame_ t ->
  exists t', render_frames n fuel t w = Some (repeat None n, t', w)
             /\ dest_producer_ t' = dest_producer_ t
             /\ source_producer_ t' = source_producer_ t.
Proof.
  induction n as [|n IH]; intros t w HD H0.
  - exists t. repeat split; reflexivity.
  - rewrite render_frames_S, (zero_duration_exhausted fuel t w HD H0).
    destruct (IH (ticked t) w) as (t' & E & Hd & Hs);
      [exact HD | simpl; apply to_ushort_range |].
    exists t'. rewrite E. repeat split; assumption.
Qed.

(** ** Children that end, loop or raise *)

(** X10.  A dest child that is exhausted for good and names itself as its
    following producer makes [render_frame] recurse without end: before
    exhaustion of the transition no depth of recursion yields a result. *)
Theorem self_following_dest_never_returns fuel t w p :
  current_frame_ t < duration (info_ t) ->
  dest_producer_ t = Some p ->
  (forall n, behaviour (producers w p) n = returns None) ->
  following (producers w p) = Some p ->
  render_frame fuel t w = None.
Proof.
  intros Hlt Hd Hb Hf. unfold render_frame. simpl.
  rewrite decide_False by lia. rewrite Hd.
  rewrite (self_following_never_returns (factory_ t) p fuel w Hb Hf).
  reflexivity.
Qed.

(** X11.  A dest child that has nothing left and no following producer is
    kept: the call of a transition other than [cut] returns absent, the dest
    pointer is unchanged (so the child is asked again by the next call),
    the child has received one call and nothing is logged for it. *)
Theorem exhausted_dest_without_following_is_kept fuel t w d source sp w2 :
  type (info_ t) <> cut ->
  current_frame_ t < duration (info_ t) ->
  dest_producer_ t = Some d ->
  next_outcome w d = returns None ->
  following (producers w d) = None ->
  render_frame_ref fuel (factory_ t) (producer_render_frame d w).2
    (source_producer_ t) = Some (source, sp, w2) ->
  render_frame fuel t w = Some (None, with_children sp (Some d) (ticked t), w2)
  /\ get_following_producer (with_children sp (Some d) (ticked t)) = Some d
  /\ calls (producers (producer_render_frame d w).2 d)
     = S (calls (producers w d))
  /\ log (producer_render_frame d w).2 = log w.
Proof.
  intros Hc Hlt Hd Hn Hf Hs.
  pose proof (render_frame_ref_stop (factory_ t) fuel w d Hn Hf) as E.
  rewrite <- Hd in E.
  rewrite (render_frame_running fuel t w _ _ _ _ _ _ Hlt E Hs).
  rewrite compose_no_dest by exact Hc. simpl.
  rewrite (with_frames_same w2 (frames w)).
  - rewrite Hd. repeat split; try reflexivity.
    simpl. rewrite fn_lookup_insert. reflexivity.
  - rewrite (render_frame_ref_frames _ _ _ _ _ _ _ Hs). reflexivity.
Qed.

(** What a call on a child adds to the log. *)
Lemma render_frame_ref_log fac fuel : forall w producer frame producer' w',
  render_frame_ref fuel fac w producer = Some (frame, producer', w') ->
  match producer, producer' with
  | None, _ => log w' = log w
  | Some _, Some _ => log w' = log w
  | Some _, None =>
      frame = None
      /\ log w' = log w ++ [current_exception;
                            warning "Removed renderer from transition."]
  end.
Proof.
  induction fuel as [|fuel IH]; intros w [p|] frame producer' w'; simpl;
    try (intros [= <- <- <-]; reflexivity).
  - destruct (behaviour (producers w p) (calls (producers w p))) as [[f|]|].
    + intros [= <- <- <-]. reflexivity.
    + destruct (producer_get_following_producer p _);
        [discriminate | intros [= <- <- <-]; reflexivity].
    + intros [= <- <- <-]. split; reflexivity.
  - destruct (behaviour (producers w p) (calls (producers w p))) as [[f|]|].
    + intros [= <- <- <-]. reflexivity.
    + destruct (producer_get_following_producer p _) as [fo|];
        [| intros [= <- <- <-]; reflexivity].
      intros H. apply IH in H. exact H.
    + intros [= <- <- <-]. split; reflexivity.
Qed.

(** X12.  The warning is logged exactly when a child is removed: a call on a
    present child that leaves the reference null has yielded no frame and
    has appended the exception and the warning "Removed renderer from
    transition." to the log; a call that leaves a child in place, after
    any number of advances, appends nothing. *)
Theorem removal_is_logged fac fuel w p frame producer' w' :
  render_frame_ref fuel fac w (Some p) = Some (frame, producer', w') ->
  match producer' with
  | Some _ => log w' = log w
  | None =>
      frame = None
      /\ log w' = log w ++ [current_exception;
                            warning "Removed renderer from transition."]
  end.
Proof. intros H. apply render_frame_ref_log in H. exact H. Qed.

(** X13.  Once the dest child has been removed, the transition has no
    following producer to hand over, and [initialize], which dereferences
    the dest pointer, has no result. *)
Theorem removed_dest_leaves_no_following fuel fac t w r t' w' :
  current_frame_ t < duration (info_ t) ->
  absent_or_raising w (dest_producer_ t) ->
  render_frame fuel t w = Some (r, t', w') ->
  get_following_producer t' = None
  /\ initialize fac t' w' = None.
Proof.
  intros Hlt Hfail. unfold render_frame. simpl.
  rewrite decide_False by lia.
  destruct (render_frame_ref_barrier (factory_ t) fuel w _ Hfail)
    as (w1 & E & _).
  rewrite E. simpl.
  destruct (render_frame_ref fuel _ w1 _) as [[[source sp] w2]|];
    [|discriminate]. simpl.
  destruct (compose _ _ _ _). intros [= <- <- <-].
  split; reflexivity.
Qed.

(** X14.  The factory given to [initialize] is the one that the producers
    advanced to later receive: after [initialize], one call on a dest that
    heads a chain of exhausted producers ends on the last of the chain, and
    every producer of the chain holds that factory and has its predecessor
    as leading producer. *)
Theorem initialized_factory_reaches_followers fuel fac t w t1 w1 p rest f :
  initialize fac t w = Some (t1, w1) ->
  dest_producer_ t = Some p ->
  NoDup (p :: rest) ->
  exhausted_chain w p rest ->
  next_outcome w (List.last rest p) = returns (Some f) ->
  (length rest <= fuel)%nat ->
  exists w2,
    render_frame_ref fuel (factory_ t1) w1 (dest_producer_ t1)
    = Some (Some f, Some (List.last rest p), w2)
    /\ factory (producers w2 p) = fac
    /\ linked w2 fac p rest.
Proof.
  intros Hinit Hd Hnd Hch Hlast Hfuel.
  unfold initialize in Hinit. rewrite Hd in Hinit.
  injection Hinit as <- <-. simpl.
  assert (Hsame : forall x, x ∈ p :: rest ->
            next_outcome (producer_initialize p fac w) x = next_outcome w x
            /\ following (producers (producer_initialize p fac w) x)
               = following (producers w x)).
  { intros x _. split; producer_fields. }
  destruct (render_frame_ref_chain fac rest p (producer_initialize p fac w)
              fuel f Hnd (exhausted_chain_ext rest p w _ Hsame Hch))
    as (w2 & E & Hlink & Hkeep).
  - destruct (Hsame _ (last_elem rest p)) as [-> _]. exact Hlast.
  - exact Hfuel.
  - exists w2. split; [exact E|]. split; [|exact Hlink].
    apply NoDup_cons in Hnd. destruct Hnd as [Hp _].
    destruct (Hkeep p Hp) as [_ ->]. simpl.
    rewrite fn_lookup_insert. reflexivity.
Qed.

(** ** One frame object handed over on successive calls *)

(** X16.  A dest child that hands over the same frame object on two
    successive calls (as a still picture does) gets the samples of that
    object scaled by both calls, one after the other: the scaling of a call
    is applied to what the call before has left. *)
Theorem repeated_frame_is_scaled_again fuel t w d f fd :
  type (info_ t) <> cut ->
  0 <= current_frame_ t -> current_frame_ t + 2 <= duration (info_ t) ->
  representable (info_ t) ->
  dest_producer_ t = Some d -> source_producer_ t = None ->
  behaviour (producers w d) (calls (producers w d)) = returns (Some f) ->
  behaviour (producers w d) (S (calls (producers w d))) = returns (Some f) ->
  frames w !! f = Some fd ->
  exists rs t' w',
    render_frames 2 fuel t w = Some (rs, t', w')
    /\ Forall is_Some rs
    /\ audio_data_ <$> frames w' !! f
       = Some (map (scale_sample (256 * (current_frame_ t + 2)
                                  / duration (info_ t)))
                   (map (scale_sample (256 * (current_frame_ t + 1)
                                       / duration (info_ t)))
                        (audio_data_ fd))).
Proof.
  intros Hc H0 H2 Hrep Hd Hs Hb1 Hb2 Hfd.
  (* first call *)
  assert (E1 : render_frame_ref fuel (factory_ t) w (dest_producer_ t)
               = Some (Some f, Some d, (producer_render_frame d w).2))
    by (rewrite Hd; apply render_frame_ref_returns; exact Hb1).
  assert (S1 : render_frame_ref fuel (factory_ t) (producer_render_frame d w).2
                 (source_producer_ t)
               = Some (None, None, (producer_render_frame d w).2))
    by (rewrite Hs; apply render_frame_ref_null).
  assert (Hlt0 : current_frame_ t < duration (info_ t)) by lia.
  assert (Hk0 : 0 <= current_frame_ t < duration (info_ t)) by lia.
  destruct (render_frame_blend fuel t w f _ _ None _ _ Hc Hlt0 E1 S1)
    as (c1 & w1 & R1 & Hnew1 & _ & Hold1).
  destruct (progress_ticked t None (Some d) (current_frame_ t) eq_refl
              Hk0 Hrep) as [_ Hv1].
  set (t1 := with_children None (Some d) (ticked t)) in *.
  assert (Hfc1 : f <> c1) by congruence.
  assert (Ha1 : audio_data_ <$> frames w1 !! f
                = Some (map (scale_sample (256 * (current_frame_ t + 1)
                                           / duration (info_ t)))
                            (audio_data_ fd))).
  { rewrite Hold1, blended_dest_audio, Hfd, Hv1 by (assumption || discriminate).
    reflexivity. }
  apply fmap_Some in Ha1. destruct Ha1 as (fd1 & Hfd1 & Haud1).
  (* the world between the calls *)
  assert (Hp1 : producers w1 = producers (producer_render_frame d w).2).
  { assert (Hlt : current_frame_ t < duration (info_ t)) by lia.
    rewrite (render_frame_running fuel t w _ _ _ _ _ _ Hlt E1 S1) in R1.
    injection R1 as _ <-. reflexivity. }
  assert (Hb2' : next_outcome w1 d = returns (Some f)).
  { unfold next_outcome. rewrite Hp1. simpl. rewrite fn_lookup_insert.
    simpl. exact Hb2. }
  (* second call *)
  assert (Hcf1 : current_frame_ t1 = current_frame_ t + 1).
  { simpl. apply to_ushort_small. unfold representable in Hrep. lia. }
  pose proof (render_frame_ref_returns (factory_ t1) fuel w1 d f Hb2') as E2.
  pose proof (render_frame_ref_null (factory_ t1) fuel
                (producer_render_frame d w1).2) as S2.
  assert (Hc1 : type (info_ t1) <> cut) by exact Hc.
  assert (Hi1 : info_ t1 = info_ t) by reflexivity.
  assert (Hlt1 : current_frame_ t1 < duration (info_ t1))
    by (rewrite Hcf1, Hi1; lia).
  destruct (render_frame_blend fuel t1 w1 f _ _ None _ _ Hc1 Hlt1 E2 S2)
    as (c2 & w2 & R2 & Hnew2 & _ & Hold2).
  assert (Hk1 : 0 <= current_frame_ t1 < duration (info_ t1))
    by (rewrite Hcf1, Hi1; lia).
  destruct (progress_ticked t1 None (Some d) (current_frame_ t1) eq_refl
              Hk1 Hrep) as [_ Hv2].
  assert (Hfc2 : f <> c2) by congruence.
  exists [Some c1; Some c2], (with_children None (Some d) (ticked t1)), w2.
  split.
  { rewrite render_frames_S, R1, render_frames_S, R2. reflexivity. }
  split; [repeat constructor; eexists; reflexivity|].
  rewrite Hold2, blended_dest_audio, Hfd1, Hv2 by (assumption || discriminate).
  rewrite Hcf1, Hi1.
  replace (current_frame_ t + 1 + 1) with (current_frame_ t + 2) by lia.
  cbn [fmap option_fmap option_map]. rewrite <- Haud1. reflexivity.
Qed.

(** ** The further properties at concrete inputs *)

Ltac studio_side :=
  first [ reflexivity
        | discriminate
        | lia
        | (simpl; lia)
        | (unfold representable, USHRT_MAX; simpl; lia)
        | (vm_compute; reflexivity)
        | (repeat constructor; unfold in_short_range; lia) ].

Lemma push_geometry_witness :
  exists c t' w',
    render_frame 0 (started (mk_transition_info push 4 from_right)) studio
    = Some (Some c, t', w')
    /\ translation <$> frames w' !! 0%nat
       = Some ((1 - next_progress
                      (started (mk_transition_info push 4 from_right)))%Q, 0%Q)
    /\ translation <$> frames w' !! 1%nat
       = Some ((0 - next_progress
                      (started (mk_transition_info push 4 from_right)))%Q, 0%Q)
    /\ alpha_ <$> frames w' !! 0%nat = Some 1%Q
    /\ alpha_ <$> frames w' !! 1%nat = Some 1%Q
    /\ texcoords_ <$> frames w' !! 0%nat = Some unit_rectangle
    /\ texcoords_ <$> frames w' !! 1%nat = Some unit_rectangle.
Proof.
  apply (push_geometry 0 (started (mk_transition_info push 4 from_right))
           studio 0%nat (Some 0%nat) (producer_render_frame 0%nat studio).2
           1%nat (Some 1%nat)
           (producer_render_frame 1%nat (producer_render_frame 0%nat studio).2).2
           (tone [10000; -10000]) (tone [10000; 7])); studio_side.
Defined.

Lemma wipe_geometry_witness :
  exists c t' w',
    render_frame 0 (started (mk_transition_info wipe 4 from_right)) studio
    = Some (Some c, t', w')
    /\ translation <$> frames w' !! 0%nat
       = Some ((1 - next_progress
                      (started (mk_transition_info wipe 4 from_right)))%Q, 0%Q)
    /\ texcoords_ <$> frames w' !! 0%nat
       = Some (mk_rectangle
                 (1 - next_progress
                        (started (mk_transition_info wipe 4 from_right))) 1
                 (2 - next_progress
                        (started (mk_transition_info wipe 4 from_right))) 0)
    /\ alpha_ <$> frames w' !! 0%nat = Some 1%Q
    /\ translation <$> frames w' !! 1%nat = Some (0%Q, 0%Q)
    /\ alpha_ <$> frames w' !! 1%nat = Some 1%Q
    /\ texcoords_ <$> frames w' !! 1%nat = Some unit_rectangle.
Proof.
  apply (wipe_geometry 0 (started (mk_transition_info wipe 4 from_right))
           studio 0%nat (Some 0%nat) (producer_render_frame 0%nat studio).2
           1%nat (Some 1%nat)
           (producer_render_frame 1%nat (producer_render_frame 0%nat studio).2).2
           (tone [10000; -10000]) (tone [10000; 7])); studio_side.
Defined.

Lemma slide_geometry_witness :
  exists c t' w',
    render_frame 0 (started (mk_transition_info slide 4 from_right)) studio
    = Some (Some c, t', w')
    /\ translation <$> frames w' !! 0%nat
       = Some ((1 - next_progress
                      (started (mk_transition_info slide 4 from_right)))%Q, 0%Q)
    /\ alpha_ <$> frames w' !! 0%nat = Some 1%Q
    /\ texcoords_ <$> frames w' !! 0%nat = Some unit_rectangle
    /\ translation <$> frames w' !! 1%nat = Some (0%Q, 0%Q)
    /\ alpha_ <$> frames w' !! 1%nat = Some 1%Q
    /\ texcoords_ <$> frames w' !! 1%nat = Some unit_rectangle.
Proof.
  apply (slide_geometry 0 (started (mk_transition_info slide 4 from_right))
           studio 0%nat (Some 0%nat) (producer_render_frame 0%nat studio).2
           1%nat (Some 1%nat)
           (producer_render_frame 1%nat (producer_render_frame 0%nat studio).2).2
           (tone [10000; -10000]) (tone [10000; 7])); studio_side.
Defined.

Lemma mix_leaves_geometry_witness :
  exists c t' w',
    render_frame 0 (started (mk_transition_info mix 4 from_left)) studio
    = Some (Some c, t', w')
    /\ alpha_ <$> frames w' !! 0%nat
       = Some (next_progress (started (mk_transition_info mix 4 from_left)))
    /\ translation <$> frames w' !! 0%nat = Some (0%Q, 0%Q)
    /\ texcoords_ <$> frames w' !! 0%nat = Some unit_rectangle
    /\ translation <$> frames w' !! 1%nat = Some (0%Q, 0%Q)
    /\ alpha_ <$> frames w' !! 1%nat = Some 1%Q
    /\ texcoords_ <$> frames w' !! 1%nat = Some unit_rectangle.
Proof.
  apply (mix_leaves_geometry 0 (started (mk_transition_info mix 4 from_left))
           studio 0%nat (Some 0%nat) (producer_render_frame 0%nat studio).2
           1%nat (Some 1%nat)
           (producer_render_frame 1%nat (producer_render_frame 0%nat studio).2).2
           (tone [10000; -10000]) (tone [10000; 7])); studio_side.
Defined.

Lemma samples_stay_in_range_witness :
  exists c t' w',
    render_frame 0 (started (mk_transition_info mix 4 from_left)) studio
    = Some (Some c, t', w')
    /\ 0 <= next_volume (started (mk_transition_info mix 4 from_left)) <= 256
    /\ audio_data_ <$> frames w' !! 0%nat
       = Some (map (fun s => s * next_volume
                                   (started (mk_transition_info mix 4 from_left))
                            / 256) [10000; -10000])
    /\ audio_data_ <$> frames w' !! 1%nat
       = Some (map (fun s => s * (256 - next_volume
                                   (started (mk_transition_info mix 4 from_left)))
                            / 256) [10000; 7])
    /\ Forall in_short_range
         (map (fun s => s * next_volume
                              (started (mk_transition_info mix 4 from_left))
                       / 256) [10000; -10000])
    /\ Forall in_short_range
         (map (fun s => s * (256 - next_volume
                              (started (mk_transition_info mix 4 from_left)))
                       / 256) [10000; 7]).
Proof.
  apply (samples_stay_in_range 0 (started (mk_transition_info mix 4 from_left))
           studio 0%nat (Some 0%nat) (producer_render_frame 0%nat studio).2
           1%nat (Some 1%nat)
           (producer_render_frame 1%nat (producer_render_frame 0%nat studio).2).2
           (tone [10000; -10000]) (tone [10000; 7])); studio_side.
Defined.

Lemma last_call_completes_blend_witness :
  exists c t' w',
    render_frame 0 (started (mk_transition_info mix 1 from_left)) studio
    = Some (Some c, t', w')
    /\ (next_progress (started (mk_transition_info mix 1 from_left)) == 1)%Q
    /\ next_volume (started (mk_transition_info mix 1 from_left)) = 256
    /\ audio_data_ <$> frames w' !! 0%nat = Some [10000; -10000]
    /\ audio_data_ <$> frames w' !! 1%nat = Some (map (fun _ => 0) [10000; 7]).
Proof.
  apply (last_call_completes_blend 0
           (started (mk_transition_info mix 1 from_left))
           studio 0%nat (Some 0%nat) (producer_render_frame 0%nat studio).2
           1%nat (Some 1%nat)
           (producer_render_frame 1%nat (producer_render_frame 0%nat studio).2).2
           (tone [10000; -10000]) (tone [10000; 7])); studio_side.
Defined.


Lemma counter_counts_calls_witness :
  current_frame_ (ticked (ticked (started (mk_transition_info cut 1 from_left))))
  = (0 + Z.of_nat 2) mod 65536
  /\ 0 <= current_frame_
            (ticked (ticked (started (mk_transition_info cut 1 from_left))))
     <= USHRT_MAX
  /\ info_ (ticked (ticked (started (mk_transition_info cut 1 from_left))))
     = mk_transition_info cut 1 from_left
  /\ format_desc_
       (ticked (ticked (started (mk_transition_info cut 1 from_left)))) = "PAL"
  /\ factory_ (ticked (ticked (started (mk_transition_info cut 1 from_left))))
     = None
  /\ length [Some 1%nat; None] = 2%nat.
Proof.
  apply (counter_counts_calls 0 2
           (started (mk_transition_info cut 1 from_left)) studio
           [Some 1%nat; None]
           (ticked (ticked (started (mk_transition_info cut 1 from_left))))
           (producer_render_frame 1%nat (producer_render_frame 0%nat studio).2).2);
    studio_side.
Defined.

Lemma zero_duration_never_renders_witness :
  exists t',
    render_frames 3 0 (started (mk_transition_info mix 0 from_left)) studio
    = Some (repeat None 3, t', studio)
    /\ dest_producer_ t' = Some 0%nat
    /\ source_producer_ t' = Some 1%nat.
Proof.
  apply (zero_duration_never_renders 0 3
           (started (mk_transition_info mix 0 from_left)) studio); studio_side.
Defined.

Lemma self_following_dest_never_returns_witness :
  render_frame 5 (started (mk_transition_info mix 3 from_left))
    studio_with_looping_dest = None.
Proof.
  apply (self_following_dest_never_returns 5
           (started (mk_transition_info mix 3 from_left))
           studio_with_looping_dest 0%nat); studio_side.
Defined.

Lemma exhausted_dest_without_following_is_kept_witness :
  render_frame 0 (started (mk_transition_info mix 3 from_left))
    studio_with_ended_dest
  = Some (None,
          with_children (Some 1%nat) (Some 0%nat)
            (ticked (started (mk_transition_info mix 3 from_left))),
          (producer_render_frame 1%nat
             (producer_render_frame 0%nat studio_with_ended_dest).2).2)
  /\ get_following_producer
       (with_children (Some 1%nat) (Some 0%nat)
          (ticked (started (mk_transition_info mix 3 from_left))))
     = Some 0%nat
  /\ calls (producers (producer_render_frame 0%nat studio_with_ended_dest).2
              0%nat)
     = S (calls (producers studio_with_ended_dest 0%nat))
  /\ log (producer_render_frame 0%nat studio_with_ended_dest).2
     = log studio_with_ended_dest.
Proof.
  apply (exhausted_dest_without_following_is_kept 0
           (started (mk_transition_info mix 3 from_left))
           studio_with_ended_dest 0%nat (Some 1%nat) (Some 1%nat)
           (producer_render_frame 1%nat
              (producer_render_frame 0%nat studio_with_ended_dest).2).2);
    studio_side.
Defined.

Lemma removal_is_logged_witness :
  (None : gpu_frame_ptr) = None
  /\ log (with_log [current_exception;
                    warning "Removed renderer from transition."]
            (producer_render_frame 0%nat studio_with_broken_dest).2)
     = log studio_with_broken_dest
       ++ [current_exception; warning "Removed renderer from transition."].
Proof.
  apply (removal_is_logged None 0 studio_with_broken_dest 0%nat None None
           (with_log [current_exception;
                      warning "Removed renderer from transition."]
              (producer_render_frame 0%nat studio_with_broken_dest).2)).
  reflexivity.
Defined.

Lemma removed_dest_leaves_no_following_witness :
  get_following_producer
    (with_children (Some 1%nat) None
       (ticked (started (mk_transition_info mix 3 from_left)))) = None
  /\ initialize (Some 7%nat)
       (with_children (Some 1%nat) None
          (ticked (started (mk_transition_info mix 3 from_left))))
       (producer_render_frame 1%nat
          (with_log [current_exception;
                     warning "Removed renderer from transition."]
             (producer_render_frame 0%nat studio_with_broken_dest).2)).2
     = None.
Proof.
  apply (removed_dest_leaves_no_following 0 (Some 7%nat)
           (started (mk_transition_info mix 3 from_left))
           studio_with_broken_dest None); studio_side.
Defined.

Lemma initialized_factory_reaches_followers_witness :
  exists w2,
    render_frame_ref 3 (Some 7%nat) (producer_initialize 0%nat (Some 7%nat) relay)
      (Some 0%nat)
    = Some (Some 0%nat, Some 3%nat, w2)
    /\ factory (producers w2 0%nat) = Some 7%nat
    /\ linked w2 (Some 7%nat) 0%nat [1%nat; 2%nat; 3%nat].
Proof.
  apply (initialized_factory_reaches_followers 3 (Some 7%nat)
           (constructed (mk_transition_info mix 5 from_left)) relay
           relay_transition (producer_initialize 0%nat (Some 7%nat) relay)
           0%nat [1%nat; 2%nat; 3%nat] 0%nat).
  - reflexivity.
  - reflexivity.
  - apply (bool_decide_unpack _). vm_compute. exact I.
  - simpl. repeat split; reflexivity.
  - reflexivity.
  - simpl. lia.
Defined.

Lemma repeated_frame_is_scaled_again_witness :
  exists rs t' w',
    render_frames 2 0 (constructed (mk_transition_info mix 4 from_left)) studio
    = Some (rs, t', w')
    /\ Forall is_Some rs
    /\ audio_data_ <$> frames w' !! 0%nat
       = Some (map (scale_sample (256 * (0 + 2) / 4))
                   (map (scale_sample (256 * (0 + 1) / 4)) [10000; -10000])).
Proof.
  apply (repeated_frame_is_scaled_again 0
           (constructed (mk_transition_info mix 4 from_left)) studio
           0%nat 0%nat (tone [10000; -10000])); studio_side.
Defined.

(** * Properties of the server shell *)

Import server.

(** ** Case-insensitive comparison and [create_protocol] *)

Lemma iequals_refl a : iequals a a = true.
Proof.
  induction a as [|x a IH]; [reflexivity|].
  simpl. rewrite Ascii.eqb_refl, IH. reflexivity.
Qed.

Lemma iequals_sym a : forall b, iequals a b = iequals b a.
Proof.
  induction a as [|x a IH]; intros [|y b]; simpl; try reflexivity.
  rewrite IH, (Ascii.eqb_sym (toupper x)). reflexivity.
Qed.

Lemma iequals_trans a : forall b c,
  iequals a b = true -> iequals b c = true -> iequals a c = true.
Proof.
  induction a as [|x a IH]; intros [|y b] [|z c]; simpl; try discriminate;
    try reflexivity.
  intros H1 H2.
  apply andb_prop in H1. destruct H1 as [H1 H1'].
  apply andb_prop in H2. destruct H2 as [H2 H2'].
  apply Ascii.eqb_eq in H1. apply Ascii.eqb_eq in H2.
  rewrite H1, H2, Ascii.eqb_refl, (IH b c H1' H2'). reflexivity.
Qed.

Lemma iequals_length a : forall b,
  iequals a b = true -> String.length a = String.length b.
Proof.
  induction a as [|x a IH]; intros [|y b]; simpl; try discriminate;
    try reflexivity.
  intros H. apply andb_prop in H. destruct H as [_ H].
  rewrite (IH b H). reflexivity.
Qed.

Lemma iequals_false_by_length a b :
  String.length a <> String.length b -> iequals a b = false.
Proof.
  intros H. destruct (iequals a b) eqn:E; [|reflexivity].
  apply iequals_length in E. contradiction.
Qed.

Lemma create_protocol_inr name p :
  create_protocol name = inr p <-> iequals name (strategy_name p) = true.
Proof.
  unfold create_protocol.
  destruct (iequals name "AMCP") eqn:E1.
  { pose proof (iequals_length _ _ E1) as L. simpl in L.
    destruct p; simpl; split; try congruence; intros H;
      apply iequals_length in H; simpl in H; lia. }
  destruct (iequals name "CII") eqn:E2.
  { pose proof (iequals_length _ _ E2) as L. simpl in L.
    destruct p; simpl; split; try congruence; intros H;
      apply iequals_length in H; simpl in H; lia. }
  destruct (iequals name "CLOCK") eqn:E3.
  { pose proof (iequals_length _ _ E3) as L. simpl in L.
    destruct p; simpl; split; try congruence; intros H;
      apply iequals_length in H; simpl in H; lia. }
  destruct p; simpl; split; congruence.
Qed.

(** X17.  [create_protocol] makes a strategy exactly for the names that are
    AMCP, CII or CLOCK up to the case of their letters; for every other name
    it raises the exception "Invalid protocol" that carries the argument name
    and the offending value. *)
Theorem create_protocol_accepts name :
  (forall p, create_protocol name = inr p
             <-> iequals name (strategy_name p) = true)
  /\ ((forall p, iequals name (strategy_name p) = false) <->
      create_protocol name
      = inl (caspar_exception (Some "name") (Some name) "Invalid protocol")).
Proof.
  split; [intros p; apply create_protocol_inr|].
  split.
  - intros H. unfold create_protocol.
    pose proof (H AMCPProtocolStrategy) as H1.
    pose proof (H CIIProtocolStrategy) as H2.
    pose proof (H clk_protocol_strategy) as H3.
    simpl in H1, H2, H3. rewrite H1, H2, H3. reflexivity.
  - intros H p. destruct (iequals name (strategy_name p)) eqn:E;
      [|reflexivity].
    apply create_protocol_inr in E. congruence.
Qed.

(** X18.  The case of the letters of a protocol name does not matter: two
    names that are equal up to case make the same strategy, or are both
    rejected. *)
Theorem create_protocol_ignores_case a b p :
  iequals a b = true ->
  (create_protocol a = inr p <-> create_protocol b = inr p)
  /\ ((exists e, create_protocol a = inl e)
      <-> (exists e, create_protocol b = inl e)).
Proof.
  intros H.
  assert (Heq : forall q, create_protocol a = inr q
                          <-> create_protocol b = inr q).
  { intros q. rewrite !create_protocol_inr. split; intros E.
    - rewrite iequals_sym in H. exact (iequals_trans _ _ _ H E).
    - exact (iequals_trans _ _ _ H E). }
  split; [apply Heq|].
  split; intros [e He].
  - destruct (create_protocol b) as [e'|q] eqn:Eb; [eexists; reflexivity|].
    pose proof (proj2 (Heq q) eq_refl) as Ea. congruence.
  - destruct (create_protocol a) as [e'|q] eqn:Ea; [eexists; reflexivity|].
    pose proof (proj1 (Heq q) eq_refl) as Eb. congruence.
Qed.

Lemma create_protocol_ignores_case_witness :
  (create_protocol "amcp" = inr AMCPProtocolStrategy
   <-> create_protocol "AmCp" = inr AMCPProtocolStrategy)
  /\ ((exists e, create_protocol "amcp" = inl e)
      <-> (exists e, create_protocol "AmCp" = inl e)).
Proof.
  apply (create_protocol_ignores_case "amcp" "AmCp" AMCPProtocolStrategy).
  reflexivity.
Defined.

(** ** [setup_controllers] *)

Section Controllers.

Variable ext : externals.

Lemma CASPAR_LOG_without_log e s : without_log (CASPAR_LOG e s) = without_log s.
Proof. reflexivity. Qed.

(** Whether the try block of an entry raises does not depend on the state. *)
Lemma try_controller_raises x s0 e :
  try_controller ext x s0 = inl e -> forall s, try_controller ext x s = inl e.
Proof.
  unfold try_controller. intros H s.
  destruct (get wstring ["protocol"] x.2) as [e0|protocol]; [exact H|].
  destruct (String.eqb x.1 "tcp"); [|discriminate].
  destruct (create_protocol protocol) as [e1|strategy]; [exact H|].
  destruct (listen ext strategy _) as [e2|]; [exact H|discriminate].
Qed.

Lemma setup_controller_skips x :
  (x.1 <> "tcp" \/ exists e s0, try_controller ext x s0 = inl e) ->
  forall s, without_log (setup_controller ext s x) = without_log s.
Proof.
  intros [Hname | (e & s0 & He)] s; unfold setup_controller.
  - unfold try_controller.
    destruct (get wstring ["protocol"] x.2) as [e0|protocol]; [reflexivity|].
    destruct (String.eqb x.1 "tcp") eqn:E; [|reflexivity].
    apply String.eqb_eq in E. contradiction.
  - rewrite (try_controller_raises x s0 e He s). reflexivity.
Qed.

Lemma setup_controller_without_log x s s' :
  without_log s = without_log s' ->
  without_log (setup_controller ext s x) = without_log (setup_controller ext s' x).
Proof.
  destruct s, s'. unfold without_log. simpl. intros [= -> -> -> -> -> ->].
  unfold setup_controller, try_controller. simpl.
  destruct (get wstring ["protocol"] x.2) as [e0|protocol]; [reflexivity|].
  destruct (String.eqb x.1 "tcp"); [|reflexivity].
  destruct (create_protocol protocol) as [e1|strategy]; [reflexivity|].
  destruct (listen ext strategy _) as [e2|]; reflexivity.
Qed.

Lemma setup_controllers_without_log xs : forall s s',
  without_log s = without_log s' ->
  without_log (fold_left (setup_controller ext) xs s)
  = without_log (fold_left (setup_controller ext) xs s').
Proof.
  induction xs as [|x xs IH]; intros s s' H; [exact H|].
  simpl. apply IH. apply setup_controller_without_log. exact H.
Qed.

(** X19.  A controller entry that is not named tcp, or whose try block
    raises (no protocol child, an unknown protocol, a server that cannot be
    constructed), is only logged: the servers, the primary server and every
    other member end up as if the entry were not in the configuration, and
    the entries after it are still set up. *)
Theorem misconfigured_controller_is_skipped x xs ys s :
  (x.1 <> "tcp" \/ exists e s0, try_controller ext x s0 = inl e) ->
  without_log (fold_left (setup_controller ext) (xs ++ x :: ys) s)
  = without_log (fold_left (setup_controller ext) (xs ++ ys) s).
Proof.
  intros H. rewrite !fold_left_app. simpl.
  apply setup_controllers_without_log. apply setup_controller_skips. exact H.
Qed.

Lemma primary_is_first_amcp_step s x :
  primary_is_first_amcp s ->
  primary_is_first_amcp (setup_controller ext s x)
  /\ exists new, async_servers_ (setup_controller ext s x)
                 = async_servers_ s ++ new
                 /\ (length new <= 1)%nat.
Proof.
  intros Inv. unfold setup_controller, try_controller.
  assert (Hsame : forall e, primary_is_first_amcp (CASPAR_LOG e s)
            /\ exists new, async_servers_ (CASPAR_LOG e s) = async_servers_ s ++ new
                           /\ (length new <= 1)%nat).
  { intros e. split; [exact Inv|]. exists []. rewrite app_nil_r.
    split; [reflexivity | simpl; lia]. }
  destruct (get wstring ["protocol"] x.2) as [e0|protocol]; [apply Hsame|].
  destruct (String.eqb x.1 "tcp"); [|apply Hsame].
  destruct (create_protocol protocol) as [e1|strategy] eqn:Ecp; [apply Hsame|].
  destruct (listen ext strategy _) as [e2|]; [apply Hsame|].
  split; [|eexists; split; [reflexivity | simpl; lia]].
  unfold primary_is_first_amcp in *. simpl.
  destruct (primary_amcp_server_ s) as [p|].
  - destruct Inv as [(srv & Hsrv & Hp) Hbefore]. split.
    + exists srv. split; [|exact Hp].
      rewrite lookup_app_l; [exact Hsrv|].
      apply lookup_lt_Some in Hsrv. exact Hsrv.
    + intros j srv' Hj Hl. apply (Hbefore j srv' Hj).
      rewrite lookup_app_l in Hl; [exact Hl|].
      pose proof (lookup_lt_Some _ _ _ Hsrv). lia.
  - destruct (iequals protocol "AMCP") eqn:Ei.
    + split.
      * eexists. split.
        { rewrite lookup_app_r by lia. rewrite Nat.sub_diag. reflexivity. }
        simpl. apply (create_protocol_inr protocol AMCPProtocolStrategy) in Ei.
        congruence.
      * intros j srv' Hj Hl. rewrite lookup_app_l in Hl by exact Hj.
        apply Inv. apply list_elem_of_lookup. exists j. exact Hl.
    + intros srv' Hin. apply elem_of_app in Hin. destruct Hin as [Hin|Hin].
      * apply Inv. exact Hin.
      * apply list_elem_of_singleton in Hin. subst srv'. simpl. intros ->.
        apply create_protocol_inr in Ecp. simpl in Ecp. congruence.
Qed.

Lemma primary_is_first_amcp_fold xs : forall s,
  primary_is_first_amcp s ->
  primary_is_first_amcp (fold_left (setup_controller ext) xs s)
  /\ exists new, async_servers_ (fold_left (setup_controller ext) xs s)
                 = async_servers_ s ++ new
                 /\ (length new <= length xs)%nat.
Proof.
  induction xs as [|x xs IH]; intros s Inv.
  - split; [exact Inv|]. exists []. rewrite app_nil_r. split; [reflexivity|].
    simpl. lia.
  - simpl. destruct (primary_is_first_amcp_step s x Inv) as (Inv1 & n1 & E1 & L1).
    destruct (IH _ Inv1) as (Inv2 & n2 & E2 & L2).
    split; [exact Inv2|]. exists (n1 ++ n2). rewrite E2, E1, <- app_assoc.
    split; [reflexivity|]. rewrite length_app. lia.
Qed.

(** X20.  [setup_controllers] only appends servers, at most one per entry,
    and it makes the primary AMCP server the first server that speaks AMCP:
    no server before it does, and there is no primary server exactly when no
    server speaks AMCP. *)
Theorem primary_is_the_first_amcp_server pt s s' controllers :
  get_child_optional ["configuration"; "controllers"] pt = Some controllers ->
  setup_controllers ext pt s = inr s' ->
  primary_is_first_amcp s ->
  primary_is_first_amcp s'
  /\ exists new, async_servers_ s' = async_servers_ s ++ new
                 /\ (length new <= length (children controllers))%nat.
Proof.
  intros Hc. unfold setup_controllers, get_child. rewrite Hc.
  intros [= <-] Inv. apply primary_is_first_amcp_fold. exact Inv.
Qed.

End Controllers.

(** ** [setup_channels] *)

Section Channels.

Variable ext : externals.

(** One turn of the consumer loop writes the log and the output of the
    channel under construction, nothing else. *)
Lemma setup_consumer_step s out x :
  without_log (setup_consumer ext (s, out) x).1 = without_log s
  /\ (length (setup_consumer ext (s, out) x).2 <= length out + 1)%nat.
Proof.
  unfold setup_consumer.
  destruct (consumer_kind x.1).
  - destruct (add_consumer ext x.1 x.2); simpl;
      [split; [reflexivity | lia]|].
    split; [reflexivity|]. rewrite length_app. simpl. lia.
  - destruct (negb (String.eqb x.1 "<xmlcomment>")); simpl;
      (split; [reflexivity | lia]).
Qed.

Lemma setup_consumers_without_log xs : forall s out,
  without_log (fold_left (setup_consumer ext) xs (s, out)).1 = without_log s
  /\ (length (fold_left (setup_consumer ext) xs (s, out)).2
      <= length out + length xs)%nat.
Proof.
  induction xs as [|x xs IH]; intros s out; [split; [reflexivity|simpl; lia]|].
  cbn [fold_left].
  destruct (setup_consumer_step s out x) as [Hw Hl].
  destruct (setup_consumer ext (s, out) x) as [s1 out1]. simpl in Hw, Hl.
  destruct (IH s1 out1) as [Hw' Hl'].
  split; [congruence | simpl; lia].
Qed.

Lemma setup_channel_inr s x :
  (exists s', setup_channel ext s x = inr s') <-> well_formed_channel ext x.
Proof.
  unfold setup_channel, well_formed_channel, get_child.
  destruct (known_video_mode ext _); cbn [negb].
  - destruct (get_child_optional ["consumers"] x.2) as [c|].
    + destruct (fold_left (setup_consumer ext) (children c) (s, []))
        as [s1 out].
      split; [intros _; split; [reflexivity | eexists; reflexivity]|].
      intros _. eexists. reflexivity.
    + split; [intros [s' H]; discriminate | intros [_ [c H]]; discriminate].
  - split; [intros [s' H]; discriminate | intros [H _]; discriminate].
Qed.

Lemma setup_channel_channels s x s' :
  setup_channel ext s x = inr s' ->
  exists c, channels_ s' = channels_ s ++ [c]
            /\ index c = Z.of_nat (length (channels_ s)) + 1
            /\ format_desc c
               = video_mode (get_or wstring ["video-mode"] "PAL" x.2)
            /\ (length (output c) <= length
                  (match get_child_optional ["consumers"] x.2 with
                   | Some cs => children cs
                   | None => []
                   end))%nat.
Proof.
  unfold setup_channel, get_child.
  destruct (known_video_mode ext _); cbn [negb]; [|discriminate].
  destruct (get_child_optional ["consumers"] x.2) as [cs|]; [|discriminate].
  destruct (setup_consumers_without_log (children cs) s []) as [Hw Hlen].
  destruct (fold_left (setup_consumer ext) (children cs) (s, []))
    as [s1 out]. simpl in Hw, Hlen.
  intros [= <-]. eexists. simpl.
  unfold without_log in Hw. injection Hw as _ _ _ _ Hch _.
  rewrite Hch. repeat split; try reflexivity. simpl. exact Hlen.
Qed.

Lemma setup_channel_loop_inr xs : forall s,
  (exists s', setup_channel_loop ext xs s = inr s')
  <-> Forall (well_formed_channel ext) xs.
Proof.
  induction xs as [|x xs IH]; intros s; simpl.
  - split; [constructor | intros _; eexists; reflexivity].
  - destruct (setup_channel ext s x) as [e|s1] eqn:E.
    + split; [intros [s' H]; discriminate|].
      intros H. inversion H as [|? ? Hx _]; subst.
      apply (setup_channel_inr s x) in Hx. destruct Hx as [s' Hx]. congruence.
    + rewrite IH. split.
      * intros H. constructor; [|exact H].
        apply (setup_channel_inr s x). eexists. exact E.
      * intros H. inversion H; assumption.
Qed.

Lemma numbered_push s c :
  numbered s -> index c = Z.of_nat (length (channels_ s)) + 1 ->
  forall s', channels_ s' = channels_ s ++ [c] -> numbered s'.
Proof.
  intros Hn Hc s' Hs' i c' Hl. rewrite Hs' in Hl.
  destruct (decide (i < length (channels_ s))%nat) as [Hi|Hi].
  - rewrite lookup_app_l in Hl by exact Hi. apply Hn. exact Hl.
  - rewrite lookup_app_r in Hl by lia.
    destruct (i - length (channels_ s))%nat as [|k] eqn:Ek; [|discriminate].
    injection Hl as <-. rewrite Hc. f_equal. lia.
Qed.

Lemma setup_channel_loop_numbered xs : forall s s',
  setup_channel_loop ext xs s = inr s' -> numbered s ->
  numbered s'
  /\ length (channels_ s') = (length (channels_ s) + length xs)%nat.
Proof.
  induction xs as [|x xs IH]; intros s s'; simpl.
  - intros [= <-] Hn. split; [exact Hn | lia].
  - destruct (setup_channel ext s x) as [e|s1] eqn:E; [discriminate|].
    intros Hloop Hn.
    destruct (setup_channel_channels s x s1 E) as (c & Hch & Hidx & _).
    destruct (IH s1 s' Hloop (numbered_push s c Hn Hidx s1 Hch)) as [Hn' Hl].
    split; [exact Hn'|]. rewrite Hl, Hch, length_app. simpl. lia.
Qed.

(** X21.  [setup_channels] succeeds exactly when the configuration has a
    channels node and every channel entry is well formed, that is, has a
    known video mode (PAL when none is given) and a consumers node.
    Nothing that happens to a consumer makes it fail. *)
Theorem setup_channels_succeeds_iff env_properties pt s :
  (exists s', setup_channels ext env_properties pt s = inr s')
  <-> exists xml_channels,
        get_child_optional ["configuration"; "channels"] pt = Some xml_channels
        /\ Forall (well_formed_channel ext) (children xml_channels).
Proof.
  unfold setup_channels, get_child.
  destruct (get_child_optional ["configuration"; "channels"] pt) as [c|].
  - destruct (setup_channel_loop ext (children c) s) as [e|s1] eqn:E.
    + split; [intros [s' H]; discriminate|].
      intros (c' & [= <-] & Hall).
      apply (setup_channel_loop_inr (children c) s) in Hall.
      destruct Hall as [s' Hs']. congruence.
    + split.
      * intros _. exists c. split; [reflexivity|].
        apply (setup_channel_loop_inr (children c) s). eexists. exact E.
      * intros _. destruct (get_or _ _ _ _); eexists; reflexivity.
  - split; [intros [s' H]; discriminate | intros (c & H & _); discriminate].
Qed.

(** The output of a channel: the consumers of its entry that were added. *)
Lemma setup_consumers_added xs : forall s out,
  (fold_left (setup_consumer ext) xs (s, out)).2
  = out ++ List.filter (consumer_is_added ext) xs.
Proof.
  induction xs as [|x xs IH]; intros s out; [simpl; rewrite app_nil_r; reflexivity|].
  cbn [fold_left List.filter]. unfold setup_consumer at 2, consumer_is_added at 1.
  destruct (consumer_kind x.1); cbn [andb].
  - destruct (add_consumer ext x.1 x.2).
    + apply IH.
    + rewrite IH, <- app_assoc. reflexivity.
  - destruct (negb (String.eqb x.1 "<xmlcomment>")); apply IH.
Qed.

(** One turn of the channel loop appends the channel of the entry. *)
Lemma setup_channel_configured s x s' :
  setup_channel ext s x = inr s' ->
  channels_ s' = channels_ s ++ [configured_channel ext (length (channels_ s)) x].
Proof.
  unfold setup_channel, get_child, configured_channel, added_consumers.
  destruct (known_video_mode ext _); cbn [negb]; [|discriminate].
  destruct (get_child_optional ["consumers"] x.2) as [cs|]; [|discriminate].
  destruct (setup_consumers_without_log (children cs) s []) as [Hw _].
  pose proof (setup_consumers_added (children cs) s []) as Hout.
  destruct (fold_left (setup_consumer ext) (children cs) (s, []))
    as [s1 out]. simpl in Hw, Hout.
  intros [= <-]. simpl.
  unfold without_log in Hw. injection Hw as _ _ _ _ Hch _.
  rewrite Hch, Hout. reflexivity.
Qed.

Lemma setup_channel_loop_configured xs : forall s s',
  setup_channel_loop ext xs s = inr s' ->
  channels_ s'
  = channels_ s
    ++ imap (fun i => configured_channel ext (length (channels_ s) + i)) xs.
Proof.
  induction xs as [|x xs IH]; intros s s'; simpl.
  - intros [= <-]. rewrite app_nil_r. reflexivity.
  - destruct (setup_channel ext s x) as [e|s1] eqn:E; [discriminate|].
    intros Hloop. rewrite (IH s1 s' Hloop).
    rewrite (setup_channel_configured s x s1 E), <- app_assoc. simpl.
    rewrite Nat.add_0_r. do 2 f_equal.
    apply imap_ext. intros i y _. simpl.
    rewrite length_app. simpl. f_equal. lia.
Qed.

(** X22.  [setup_channels] appends one channel per channel entry of its
    argument, in the order of the configuration: entry number i (counted
    from 0) becomes the channel behind the ones that were there and the i
    made before it, with the next index, the video mode of the entry (PAL
    when it names none) and the consumers of the entry that were added.  One
    more channel, the last, follows when channel-grid is set in
    [env::properties()]; the argument is not asked for it.  With the
    channels numbered 1, 2, ... before the call they are so after it. *)
Theorem channels_are_numbered env_properties pt s s' xml_channels :
  get_child_optional ["configuration"; "channels"] pt = Some xml_channels ->
  setup_channels ext env_properties pt s = inr s' ->
  numbered s ->
  channels_ s'
  = channels_ s
    ++ imap (fun i => configured_channel ext (length (channels_ s) + i))
            (children xml_channels)
    ++ (if get_or (translate_bool ext) ["configuration"; "channel-grid"]
                  false env_properties
        then [grid_channel
                (length (channels_ s) + length (children xml_channels))]
        else [])
  /\ numbered s'.
Proof.
  intros Hc. unfold setup_channels, get_child. rewrite Hc.
  destruct (setup_channel_loop ext (children xml_channels) s) as [e|s1] eqn:E;
    [discriminate|].
  intros H Hn.
  destruct (setup_channel_loop_numbered _ _ _ E Hn) as [Hn1 Hl1].
  pose proof (setup_channel_loop_configured _ _ _ E) as Hch.
  destruct (get_or _ _ _ _); injection H as <-.
  - split.
    + simpl. rewrite Hl1, Hch, <- app_assoc. reflexivity.
    + apply (numbered_push s1
               (mk_video_channel (Z.of_nat (length (channels_ s1)) + 1)
                                 x576p2500 []) Hn1 eq_refl).
      reflexivity.
  - split; [rewrite Hch, app_nil_r; reflexivity | exact Hn1].
Qed.

(** X23.  An XML comment among the consumers of a channel is passed over
    without a trace: the consumer loop ends in the same state and output as
    without it.  Among the controllers it is not: the entry has no protocol
    child, so the exception for the missing path is logged. *)
Theorem xml_comments_in_the_configuration text xs ys acc s :
  fold_left (setup_consumer ext) (xs ++ xmlcomment text :: ys) acc
  = fold_left (setup_consumer ext) (xs ++ ys) acc
  /\ setup_controller ext s (xmlcomment text)
     = CASPAR_LOG (current_exception (ptree_bad_path ["protocol"])) s.
Proof.
  split; [|reflexivity].
  rewrite !fold_left_app. simpl.
  destruct (fold_left (setup_consumer ext) xs acc) as [s1 out]. reflexivity.
Qed.

Lemma setup_consumers_output xs : forall s s' out,
  (fold_left (setup_consumer ext) xs (s, out)).2
  = (fold_left (setup_consumer ext) xs (s', out)).2.
Proof.
  induction xs as [|x xs IH]; intros s s' out; [reflexivity|].
  cbn [fold_left]. unfold setup_consumer at 2 4.
  destruct (consumer_kind x.1).
  - destruct (add_consumer ext x.1 x.2); apply IH.
  - destruct (negb (String.eqb x.1 "<xmlcomment>")); apply IH.
Qed.

(** X26.  A consumer entry of an unknown kind, or one whose consumer raises
    while it is created or added, changes nothing but the log: the channel
    gets the consumers before and after it, and every member of the server
    but the log ends up as if the entry were not in the configuration. *)
Theorem failing_consumer_is_skipped x xs ys s out :
  (consumer_kind x.1 = false \/ is_Some (add_consumer ext x.1 x.2)) ->
  (fold_left (setup_consumer ext) (xs ++ x :: ys) (s, out)).2
  = (fold_left (setup_consumer ext) (xs ++ ys) (s, out)).2
  /\ without_log (fold_left (setup_consumer ext) (xs ++ x :: ys) (s, out)).1
     = without_log (fold_left (setup_consumer ext) (xs ++ ys) (s, out)).1.
Proof.
  intros H. rewrite !fold_left_app. cbn [fold_left].
  destruct (fold_left (setup_consumer ext) xs (s, out)) as [s1 out1].
  destruct (setup_consumer_step s1 out1 x) as [Hw _].
  assert (Hx : (setup_consumer ext (s1, out1) x).2 = out1).
  { unfold setup_consumer. destruct H as [-> | [e ->]].
    - destruct (negb (String.eqb x.1 "<xmlcomment>")); reflexivity.
    - destruct (consumer_kind x.1); [reflexivity|].
      destruct (negb (String.eqb x.1 "<xmlcomment>")); reflexivity. }
  destruct (setup_consumer ext (s1, out1) x) as [s2 out2].
  simpl in Hx, Hw. subst out2. split.
  - apply setup_consumers_output.
  - rewrite (proj1 (setup_consumers_without_log ys s2 out1)),
      (proj1 (setup_consumers_without_log ys s1 out1)).
    exact Hw.
Qed.

End Channels.

(** ** [setup_osc] and the constructor *)

Section Constructor.

Variable ext : externals.

Lemma predefined_clients_loop_inr clients : forall subscriptions,
  (forall r, predefined_clients_loop ext clients subscriptions = inr r ->
     exists tokens,
       r = subscriptions ++ tokens
       /\ Forall2 (fun client token => predefined_client ext client = inr token)
                  clients tokens)
  /\ ((exists r, predefined_clients_loop ext clients subscriptions = inr r)
      <-> Forall (fun client => exists token,
                    predefined_client ext client = inr token) clients).
Proof.
  induction clients as [|c clients IH]; intros subscriptions; simpl.
  - split.
    + intros r [= <-]. exists []. rewrite app_nil_r.
      split; [reflexivity | constructor].
    + split; [constructor | intros _; eexists; reflexivity].
  - destruct (predefined_client ext c) as [e|token] eqn:E.
    + split; [discriminate|].
      split; [intros [r H]; discriminate|].
      intros H. inversion H as [|? ? [t Ht] _]; subst. congruence.
    + destruct (IH (subscriptions ++ [token])) as [IH1 IH2]. split.
      * intros r Hr. destruct (IH1 r Hr) as (tokens & -> & Hall).
        exists (token :: tokens). rewrite <- app_assoc.
        split; [reflexivity|]. constructor; assumption.
      * rewrite IH2. split.
        -- intros H. constructor; [eexists; exact E | exact H].
        -- intros H. inversion H; assumption.
Qed.

Lemma setup_osc_result pt s :
  ((exists s', setup_osc ext pt s = inr s')
   <-> Forall (fun client => exists token,
                 predefined_client ext client = inr token)
              (predefined_clients pt))
  /\ forall s', setup_osc ext pt s = inr s' ->
       (exists tokens,
          predefined_osc_subscriptions_ s'
          = predefined_osc_subscriptions_ s ++ tokens
          /\ Forall2 (fun client token =>
                        predefined_client ext client = inr token)
                     (predefined_clients pt) tokens)
       /\ osc_subscribe_ s'
          = match primary_amcp_server_ s with
            | Some _ =>
                Some (get_or (translate_ushort ext)
                        ["configuration"; "osc"; "default-port"] 6250 pt)
            | None => osc_subscribe_ s
            end
       /\ async_servers_ s' = async_servers_ s
       /\ primary_amcp_server_ s' = primary_amcp_server_ s
       /\ channels_ s' = channels_ s
       /\ thumbnail_generator_ s' = thumbnail_generator_ s.
Proof.
  unfold setup_osc, predefined_clients.
  destruct (get_child_optional
              ["configuration"; "osc"; "predefined-clients"] pt) as [c|].
  - destruct (predefined_clients_loop_inr (children c)
                (predefined_osc_subscriptions_ s)) as [H1 H2].
    destruct (predefined_clients_loop ext (children c) _) as [e|r] eqn:E.
    + split; [|discriminate]. rewrite <- H2.
      split; intros [x Hx]; discriminate.
    + split.
      * rewrite <- H2. split; intros _; eexists; reflexivity.
      * intros s' [= <-]. simpl. split; [apply H1; reflexivity|].
        repeat split; reflexivity.
  - split.
    + split; [intros _; constructor | intros _; eexists; reflexivity].
    + intros s' [= <-]. simpl. split.
      * exists []. rewrite app_nil_r. split; [reflexivity | constructor].
      * repeat split; reflexivity.
Qed.


(** The other loops touch neither the servers nor what [setup_osc] adds. *)
Lemma setup_channel_loop_others xs : forall s s',
  setup_channel_loop ext xs s = inr s' ->
  async_servers_ s' = async_servers_ s
  /\ primary_amcp_server_ s' = primary_amcp_server_ s
  /\ osc_subscribe_ s' = osc_subscribe_ s
  /\ thumbnail_generator_ s' = thumbnail_generator_ s.
Proof.
  induction xs as [|x xs IH]; intros s s'; simpl.
  - intros [= <-]. repeat split; reflexivity.
  - destruct (setup_channel ext s x) as [e|s1] eqn:E; [discriminate|].
    intros H. destruct (IH s1 s' H) as (-> & -> & -> & ->).
    revert E. unfold setup_channel, get_child.
    destruct (known_video_mode ext _); cbn [negb]; [|discriminate].
    destruct (get_child_optional ["consumers"] x.2) as [cs|]; [|discriminate].
    destruct (setup_consumers_without_log ext (children cs) s []) as [Hw _].
    destruct (fold_left (setup_consumer ext) (children cs) (s, []))
      as [s2 out]. simpl in Hw.
    intros [= <-]. simpl. unfold without_log in Hw.
    injection Hw as -> -> -> _ _ ->. repeat split; reflexivity.
Qed.

Lemma setup_controllers_others xs : forall s,
  channels_ (fold_left (setup_controller ext) xs s) = channels_ s
  /\ osc_subscribe_ (fold_left (setup_controller ext) xs s) = osc_subscribe_ s
  /\ thumbnail_generator_ (fold_left (setup_controller ext) xs s)
     = thumbnail_generator_ s.
Proof.
  induction xs as [|x xs IH]; intros s; [repeat split; reflexivity|].
  simpl. destruct (IH (setup_controller ext s x)) as (-> & -> & ->).
  unfold setup_controller, try_controller.
  destruct (get wstring ["protocol"] x.2) as [e0|protocol];
    [repeat split; reflexivity|].
  destruct (String.eqb x.1 "tcp"); [|repeat split; reflexivity].
  destruct (create_protocol protocol) as [e1|strategy];
    [repeat split; reflexivity|].
  destruct (listen ext strategy _) as [e2|]; repeat split; reflexivity.
Qed.

(** X25.  When the constructor returns, the channels carry the indices
    1, 2, ...; the primary AMCP server is the first server that speaks AMCP;
    the subscription factory for OSC has been added exactly when some
    controller speaks AMCP; and there is a thumbnail generator exactly when
    generate-thumbnails is not switched off. *)
Theorem constructed_server pt s :
  new_impl ext pt = inr s ->
  numbered s
  /\ primary_is_first_amcp s
  /\ (is_Some (osc_subscribe_ s)
      <-> exists srv, srv ∈ async_servers_ s
                      /\ protocol_ srv = AMCPProtocolStrategy)
  /\ (is_Some (thumbnail_generator_ s)
      <-> get_or (translate_bool ext)
                 ["configuration"; "thumbnails"; "generate-thumbnails"]
                 true pt = true).
Proof.
  unfold new_impl.
  set (s0 := fold_left _ modules members).
  assert (Hch0 : channels_ s0 = []) by reflexivity.
  (* channels *)
  destruct (setup_channels ext pt pt s0) as [e|s1] eqn:E1; [discriminate|].
  assert (Hn1 : numbered s1
                /\ async_servers_ s1 = [] /\ primary_amcp_server_ s1 = None
                /\ osc_subscribe_ s1 = None /\ thumbnail_generator_ s1 = None).
  { revert E1. unfold setup_channels, get_child.
    destruct (get_child_optional ["configuration"; "channels"] pt)
      as [c|] eqn:Ec; [|discriminate].
    destruct (setup_channel_loop ext (children c) s0) as [e|s'] eqn:El;
      [discriminate|].
    assert (Hn0 : numbered s0).
    { intros i ch Hl. rewrite Hch0 in Hl. discriminate. }
    destruct (setup_channel_loop_numbered ext _ _ _ El Hn0) as [Hn' _].
    destruct (setup_channel_loop_others _ _ _ El) as (Ha & Hp & Ho & Ht).
    change (async_servers_ s0) with (@nil AsyncEventServer) in Ha.
    change (primary_amcp_server_ s0) with (@None nat) in Hp.
    change (osc_subscribe_ s0) with (@None Z) in Ho.
    change (thumbnail_generator_ s0) with (@None thumbnail_generator) in Ht.
    destruct (get_or _ _ _ _); intros [= <-]; simpl;
      (split; [|repeat split; congruence]).
    - apply (numbered_push s'
               (mk_video_channel (Z.of_nat (length (channels_ s')) + 1)
                                 x576p2500 []) Hn' eq_refl).
      reflexivity.
    - exact Hn'. }
  destruct Hn1 as (Hn1 & Hsrv1 & Hpri1 & Hosc1 & Hth1).
  (* thumbnails *)
  set (s2 := CASPAR_LOG (info "Initialized thumbnail generator.")
               (setup_thumbnail_generation ext pt
                  (CASPAR_LOG (info "Initialized channels.") s1))).
  assert (H2 : numbered s2 /\ async_servers_ s2 = []
               /\ primary_amcp_server_ s2 = None /\ osc_subscribe_ s2 = None
               /\ (is_Some (thumbnail_generator_ s2)
                   <-> get_or (translate_bool ext)
                         ["configuration"; "thumbnails"; "generate-thumbnails"]
                         true pt = true)).
  { unfold s2, setup_thumbnail_generation.
    destruct (get_or (translate_bool ext) _ true pt); cbn [negb]; simpl;
      (split; [exact Hn1|]); repeat split; try assumption; try reflexivity.
    - intros _. eexists. reflexivity.
    - rewrite Hth1. intros [x Hx]. discriminate.
    - discriminate. }
  destruct H2 as (Hn2 & Hsrv2 & Hpri2 & Hosc2 & Hth2).
  (* controllers *)
  unfold setup_controllers, get_child.
  destruct (get_child_optional ["configuration"; "controllers"] pt)
    as [c|]; [|discriminate].
  set (s3 := fold_left (setup_controller ext) (children c) s2).
  assert (Inv2 : primary_is_first_amcp s2).
  { unfold primary_is_first_amcp. rewrite Hpri2, Hsrv2.
    intros srv Hin. apply elem_of_nil in Hin. contradiction. }
  destruct (primary_is_first_amcp_fold ext (children c) s2 Inv2) as [Inv3 _].
  destruct (setup_controllers_others (children c) s2) as (Hch3 & Hosc3 & Hth3).
  fold s3 in Inv3, Hch3, Hosc3, Hth3.
  (* osc *)
  destruct (setup_osc ext pt (CASPAR_LOG (info "Initialized controllers.") s3))
    as [e|s4] eqn:E4; [discriminate|].
  destruct (proj2 (setup_osc_result pt _) s4 E4)
    as (_ & Ho4 & Ha4 & Hp4 & Hc4 & Ht4).
  simpl in Ho4, Ha4, Hp4, Hc4, Ht4.
  intros [= <-].
  unfold numbered, primary_is_first_amcp in Hn2, Inv3 |- *. simpl.
  split; [intros i ch Hl; apply Hn2; rewrite <- Hch3, <- Hc4; exact Hl|].
  split; [rewrite Hp4, Ha4; exact Inv3|].
  split; [|rewrite Ht4, Hth3; exact Hth2].
  rewrite Ho4, Ha4.
  destruct (primary_amcp_server_ s3) as [p|].
  - destruct Inv3 as [(srv & Hl & Hp) _]. split.
    + intros _. exists srv. split; [|exact Hp].
      apply list_elem_of_lookup. exists p. exact Hl.
    + intros _. eexists. reflexivity.
  - rewrite Hosc3, Hosc2. split.
    + intros [x Hx]. discriminate.
    + intros (srv & Hin & Hp). exfalso. exact (Inv3 srv Hin Hp).
Qed.

End Constructor.

(** ** The properties of the server shell at a concrete configuration *)

Lemma misconfigured_controller_is_skipped_witness :
  without_log
    (fold_left (setup_controller quiet)
       ([("tcp", node "" [leaf "protocol" "CII"])]
        ++ ("tcp", node "" [leaf "protocol" "telnet"])
           :: [("tcp", node "" [leaf "protocol" "AMCP"])]) members)
  = without_log
      (fold_left (setup_controller quiet)
         ([("tcp", node "" [leaf "protocol" "CII"])]
          ++ [("tcp", node "" [leaf "protocol" "AMCP"])]) members).
Proof.
  apply (misconfigured_controller_is_skipped quiet
           ("tcp", node "" [leaf "protocol" "telnet"])).
  right.
  exists (caspar_exception (Some "name") (Some "telnet") "Invalid protocol"),
         members.
  reflexivity.
Defined.

Lemma primary_is_the_first_amcp_server_witness :
  primary_is_first_amcp
    (returned (setup_controllers quiet sample_configuration members))
  /\ exists new,
       async_servers_
         (returned (setup_controllers quiet sample_configuration members))
       = async_servers_ members ++ new
       /\ (length new <= length (children sample_controllers))%nat.
Proof.
  apply (primary_is_the_first_amcp_server quiet sample_configuration members).
  - reflexivity.
  - reflexivity.
  - unfold primary_is_first_amcp. simpl. intros srv Hin.
    apply elem_of_nil in Hin. contradiction.
Defined.

Lemma channels_are_numbered_witness :
  channels_ (returned (setup_channels quiet (node "" []) sample_configuration
                         members))
  = channels_ members
    ++ imap (fun i => configured_channel quiet (length (channels_ members) + i))
            (children sample_channels)
    ++ (if get_or (translate_bool quiet) ["configuration"; "channel-grid"]
                  false (node "" [])
        then [grid_channel
                (length (channels_ members) + length (children sample_channels))]
        else [])
  /\ numbered (returned (setup_channels quiet (node "" []) sample_configuration
                           members)).
Proof.
  apply (channels_are_numbered quiet (node "" []) sample_configuration members).
  - reflexivity.
  - reflexivity.
  - intros i c Hl. discriminate Hl.
Defined.

Lemma failing_consumer_is_skipped_witness :
  (fold_left (setup_consumer quiet)
     ([("screen", node "" [])]
      ++ ("projector", node "" []) :: [("decklink", node "" [])])
     (members, [])).2
  = (fold_left (setup_consumer quiet)
       ([("screen", node "" [])] ++ [("decklink", node "" [])])
       (members, [])).2
  /\ without_log
       (fold_left (setup_consumer quiet)
          ([("screen", node "" [])]
           ++ ("projector", node "" []) :: [("decklink", node "" [])])
          (members, [])).1
     = without_log
         (fold_left (setup_consumer quiet)
            ([("screen", node "" [])] ++ [("decklink", node "" [])])
            (members, [])).1.
Proof.
  apply (failing_consumer_is_skipped quiet ("projector", node "" [])).
  left. reflexivity.
Defined.

Lemma constructed_server_witness :
  numbered (returned (new_impl quiet sample_configuration))
  /\ primary_is_first_amcp (returned (new_impl quiet sample_configuration))
  /\ (is_Some (osc_subscribe_ (returned (new_impl quiet sample_configuration)))
      <-> exists srv,
            srv ∈ async_servers_ (returned (new_impl quiet sample_configuration))
            /\ protocol_ srv = AMCPProtocolStrategy)
  /\ (is_Some (thumbnail_generator_
                 (returned (new_impl quiet sample_configuration)))
      <-> get_or (translate_bool quiet)
                 ["configuration"; "thumbnails"; "generate-thumbnails"]
                 true sample_configuration = true).
Proof.
  apply (constructed_server quiet sample_configuration). reflexivity.
Defined.

(** The sample configuration, evaluated: three channels (two configured and
    the grid), three servers of which the second is the primary one, one OSC
    subscription, the factory on port 6251 and no thumbnail generator. *)
Example sample_server :
  map index (channels_ (returned (new_impl quiet sample_configuration)))
  = [1; 2; 3]
  /\ map (fun c => length (output c))
         (channels_ (returned (new_impl quiet sample_configuration)))
     = [1%nat; 1%nat; 0%nat]
  /\ async_servers_ (returned (new_impl quiet sample_configuration))
     = [mk_AsyncEventServer CIIProtocolStrategy 5250;
        mk_AsyncEventServer AMCPProtocolStrategy 5251;
        mk_AsyncEventServer AMCPProtocolStrategy 5250]
  /\ primary_amcp_server_ (returned (new_impl quiet sample_configuration))
     = Some 1%nat
  /\ predefined_osc_subscriptions_
       (returned (new_impl quiet sample_configuration))
     = [("127.0.0.1", 5253)]
  /\ osc_subscribe_ (returned (new_impl quiet sample_configuration))
     = Some 6251
  /\ thumbnail_generator_ (returned (new_impl quiet sample_configuration))
     = None.
Proof. repeat split; vm_compute; reflexivity. Qed.

Lemma create_protocol_accepts_witness :
  create_protocol "cii" = inr CIIProtocolStrategy
  /\ create_protocol "telnet"
     = inl (caspar_exception (Some "name") (Some "telnet") "Invalid protocol").
Proof.
  split.
  - apply (proj1 (create_protocol_accepts "cii") CIIProtocolStrategy).
    reflexivity.
  - apply (proj1 (proj2 (create_protocol_accepts "telnet"))).
    intros []; reflexivity.
Defined.

Lemma setup_channels_succeeds_iff_witness :
  exists s',
    setup_channels quiet sample_configuration sample_configuration members
    = inr s'.
Proof.
  apply (proj2 (setup_channels_succeeds_iff quiet sample_configuration
                  sample_configuration members)).
  exists sample_channels. split; [reflexivity|].
  repeat constructor; eexists; reflexivity.
Defined.

Lemma xml_comments_in_the_configuration_witness :
  fold_left (setup_consumer quiet)
    ([("screen", node "" [])] ++ xmlcomment "a comment" :: []) (members, [])
  = fold_left (setup_consumer quiet) ([("screen", node "" [])] ++ [])
      (members, [])
  /\ setup_controller quiet members (xmlcomment "a comment")
     = CASPAR_LOG (current_exception (ptree_bad_path ["protocol"])) members.
Proof.
  apply (xml_comments_in_the_configuration quiet "a comment"
           [("screen", node "" [])] [] (members, []) members).
Defined.

